(** * longhorn-preflight: namespace wrappers and the timeout-bound file lock

    A shallow embedding of the Go package [namespace] of go-common-libs as
    vendored by longhorn-preflight: the host-filesystem wrappers around the
    namespace executor, [LockFile], [FileLock] with [NewLock], [Lock] and
    [Unlock], and [GetDefaultProcessName]; and of package [utils]:
    [Contains], [IsStringInSlice], [RandomID], [GetKernelRelease],
    [GetOSDistro] and [getSystemBlockDeviceInfo].  The properties the
    specification states about them follow, then further properties read
    off the code. *)

From Stdlib Require Import ZArith Ascii String List Bool Lia.
From stdpp Require Import base decidable option gmap strings.
Import ListNotations.
Local Open Scope string_scope.
Local Open Scope Z_scope.

(** ** Go values that cross the executor as [interface{}] *)

(** [*os.File]: the model keeps the descriptor number. *)
Definition os_File := nat.

(** [fs.FileInfo] and [fs.DirEntry] as returned by [os.Stat] and
    [os.ReadDir]; the wrappers only pass them on. *)
Record FileInfo := mkFileInfo { fi_Name : string; fi_Size : Z; fi_IsDir : bool }.
Record DirEntry := mkDirEntry { de_Name : string; de_IsDir : bool }.

(** Modelled from the spec: [types.DiskStat] is declared outside the sources
    at hand; the spec calls it the "stat record" of a disk-usage query.  No
    definition below looks inside it. *)
Record DiskStat := mkDiskStat
  { ds_Path : string; ds_TotalBlocks : Z; ds_FreeBlocks : Z }.

(** A value of static type [interface{}], tagged by its dynamic type.  A
    pointer stored in an interface keeps its type even when it is nil, hence
    the [option]s.  [AnyOther] stands for every other dynamic type; none of
    them implements [fs.FileInfo]. *)
Inductive any :=
| AnyNil
| AnyString (s : string)
| AnyStrings (l : list string)
| AnyDirEntries (l : list DirEntry)
| AnyFileInfo (fi : FileInfo)
| AnyDiskStat (d : DiskStat)
| AnyDiskStatPtr (d : option DiskStat)
| AnyFile (f : option os_File)
| AnyOther (tag : string).

(** ** Errors *)

Inductive errno := ENOENT | EACCES | EPERM | EBADF | EIO | EWOULDBLOCK.

(** Go [error] values: the ones of the operating system, the ones built
    with [fmt.Errorf]/[errors.Errorf] (message already rendered), the cast
    failure [errors.Errorf(types.ErrNamespaceCastResultFmt, result, rawResult)]
    and [errors.Wrapf]. *)
Inductive error :=
| PathError (op path : string) (e : errno)
| Errno (e : errno)
| Errorf (msg : string)
| ErrCast (zero raw : any)
| Wrapf (cause : error) (msg : string).

(** [errors.Wrapf(err, ...)] is nil when [err] is nil. *)
Definition errors_Wrapf (err : option error) (msg : string) : option error :=
  match err with
  | None => None
  | Some e => Some (Wrapf e msg)
  end.

(** [errors.Cause]: strips the [Wrapf] layers. *)
Fixpoint errors_Cause (e : error) : error :=
  match e with
  | Wrapf c _ => errors_Cause c
  | _ => e
  end.

(** [os.IsNotExist]: looks through a [*PathError] for [ENOENT]. *)
Definition os_IsNotExist (e : error) : bool :=
  match e with
  | PathError _ _ ENOENT => true
  | Errno ENOENT => true
  | _ => false
  end.

Definition errno_text (e : errno) : string :=
  match e with
  | ENOENT => "no such file or directory"
  | EACCES => "permission denied"
  | EPERM => "operation not permitted"
  | EBADF => "bad file descriptor"
  | EIO => "input/output error"
  | EWOULDBLOCK => "resource temporarily unavailable"
  end.

(** ** The constants of package [types] *)

(** The package [types] is not part of the sources at hand; its constants
    are taken as parameters.  [ErrNamespaceCastResultFmt] is kept as the
    rendering of its two arguments. *)
Class Types := {
  ProcessNone : string;
  ProcessKubelet : string;
  OSDistroTalosLinux : string;
  HostProcDirectory : string;
  FileLockDefaultTimeout : Z;
  ErrNamespaceCastResultFmt : any -> any -> string
}.

(** [err.Error()] *)
Fixpoint Error `{Types} (e : error) : string :=
  match e with
  | PathError op path en => op +:+ " " +:+ path +:+ ": " +:+ errno_text en
  | Errno en => errno_text en
  | Errorf msg => msg
  | ErrCast zero raw => ErrNamespaceCastResultFmt zero raw
  | Wrapf c msg => msg +:+ ": " +:+ Error c
  end.

(** ** Strings and paths (Go's [strings] and [path/filepath] on Unix) *)

Definition slash : ascii := "/"%char.

(** [strings.Count(s, "/")] *)
Fixpoint strings_Count_slash (s : string) : nat :=
  match s with
  | EmptyString => O
  | String c r =>
      if Ascii.eqb c slash then S (strings_Count_slash r)
      else strings_Count_slash r
  end.

(** [strings.Split(s, sep)] for a one-byte separator. *)
Fixpoint strings_Split (sep : ascii) (s : string) : list string :=
  match s with
  | EmptyString => [EmptyString]
  | String c r =>
      if Ascii.eqb c sep then EmptyString :: strings_Split sep r
      else match strings_Split sep r with
           | [] => [String c EmptyString]
           | h :: t => String c h :: t
           end
  end.

(** [strings.Join(elems, "/")] *)
Fixpoint join_slash (l : list string) : string :=
  match l with
  | [] => ""
  | [x] => x
  | x :: r => x +:+ "/" +:+ join_slash r
  end.

(** One path element of [filepath.Clean]; [stack] holds the elements kept so
    far, last one first. *)
Definition clean_elem (rooted : bool) (stack : list string) (el : string)
  : list string :=
  if String.eqb el "" || String.eqb el "." then stack
  else if String.eqb el ".." then
    match stack with
    | top :: rest => if String.eqb top ".." then el :: stack else rest
    | [] => if rooted then [] else [el]
    end
  else el :: stack.

(** [filepath.Clean]: empty and "." elements dropped, ".." cancels the
    element before it, ".." at the root dropped. *)
Definition filepath_Clean (path : string) : string :=
  match path with
  | EmptyString => "."
  | String c _ =>
      let rooted := Ascii.eqb c slash in
      let kept := rev (fold_left (clean_elem rooted) (strings_Split slash path) []) in
      if rooted then "/" +:+ join_slash kept
      else match kept with
           | [] => "."
           | _ => join_slash kept
           end
  end.

(** [filepath.IsAbs] *)
Definition filepath_IsAbs (path : string) : bool :=
  match path with
  | String c _ => Ascii.eqb c slash
  | EmptyString => false
  end.

(** [filepath.Join] of two elements: empty ones ignored, the rest cleaned. *)
Definition filepath_Join (a b : string) : string :=
  if String.eqb a "" then (if String.eqb b "" then "" else filepath_Clean b)
  else if String.eqb b "" then filepath_Clean a
  else filepath_Clean (a +:+ "/" +:+ b).

(** [filepath.Abs], given the outcome of [os.Getwd]. *)
Definition filepath_Abs (getwd : string * option error) (path : string)
  : string * option error :=
  if filepath_IsAbs path then (filepath_Clean path, None)
  else match getwd with
       | (_, Some err) => ("", Some err)
       | (wd, None) => (filepath_Join wd path, None)
       end.

(** ** The host: operating system and helper functions

    The closures handed to the executor call into the Go standard library
    and into package [utils], neither of which is part of the sources at
    hand.  They are taken as an interface over an abstract [world]; the
    helpers of [utils] return their value as the [interface{}] the closure
    converts it to. *)
Class Host (world : Type) := {
  os_Getwd : world -> string * option error;
  os_Stat : string -> world -> (option FileInfo * option error) * world;
  os_RemoveAll : string -> world -> option error * world;
  os_ReadDir : string -> world -> (list DirEntry * option error) * world;
  os_WriteFile : string -> string -> world -> option error * world;
  utils_CopyFiles : string -> string -> bool -> world -> option error * world;
  utils_CreateDirectory : string -> Z -> world -> (any * option error) * world;
  utils_GetEmptyFiles : string -> world -> (any * option error) * world;
  utils_ReadFileContent : string -> world -> (any * option error) * world;
  utils_SyncFile : string -> world -> option error * world;
  utils_GetDiskStat : string -> world -> (any * option error) * world;
  utils_LockFile : string -> world -> (any * option error) * world;
  utils_UnlockFile : os_File -> world -> option error * world
}.

(** [func() (interface{}, error)] and the signature of [RunFunc]. *)
Definition closure (world : Type) : Type :=
  world -> (any * option error) * world.
Definition executor (world : Type) : Type :=
  closure world -> string -> string -> Z -> world -> (any * option error) * world.

(** Conversion of an [fs.FileInfo] interface value to [interface{}]. *)
Definition any_of_FileInfo (fi : option FileInfo) : any :=
  match fi with
  | Some i => AnyFileInfo i
  | None => AnyNil
  end.

(** Modelled from the spec: [RunFunc], the namespace executor, is not part
    of the sources at hand.  Section 4.2: it resolves the process, opens the
    namespace handle and switches into it, any of which may fail before the
    closure runs; it then invokes the closure, restores the namespace and
    returns the closure's result and error; a failed step is reported with a
    context naming the step. *)
Inductive ns_outcome :=
| NsResolveFails (e : error)
| NsOpenFails (e : error)
| NsSwitchFails (e : error)
| NsRestoreFails (e : error)
| NsOk.

Definition RunFunc_model {world : Type} (ns : ns_outcome) : executor world :=
  fun fn procName nsDirectory flags w =>
    match ns with
    | NsResolveFails e => ((AnyNil, Some (Wrapf e ("process not found " +:+ procName))), w)
    | NsOpenFails e => ((AnyNil, Some (Wrapf e "failed to open namespace handle")), w)
    | NsSwitchFails e => ((AnyNil, Some (Wrapf e "failed to switch namespace")), w)
    | NsRestoreFails e =>
        let '(_, w1) := fn w in
        ((AnyNil, Some (Wrapf e "failed to restore namespace")), w1)
    | NsOk => fn w
    end.

(** ** Package [namespace]: the wrappers *)

Section Wrappers.
Context {world : Type} `{Types} `{Host world}.
Variable RunFunc : executor world.

(** Each wrapper packs its operation as a closure, named [X_fn] here. *)
Definition CopyDirectory_fn (source destination : string) (overWrite : bool)
    : closure world := fun w0 =>
  let '(e, w1) := utils_CopyFiles source destination overWrite w0 in
  ((AnyString "", e), w1).

Definition CopyDirectory (procName source destination : string)
    (overWrite : bool) (w : world) : option error * world :=
  (* deferred; [err] is the named result *)
  let wrap err := errors_Wrapf err
    ("failed to copy host content from " +:+ source +:+ " to " +:+ destination) in
  match filepath_Abs (os_Getwd w) (filepath_Clean source) with
  | (_, Some err) => (wrap (Some err), w)
  | (srcDir, None) =>
      match filepath_Abs (os_Getwd w) (filepath_Clean destination) with
      | (_, Some err) => (wrap (Some err), w)
      | (dstDir, None) =>
          if (strings_Count_slash srcDir <? 2)%nat
             || (strings_Count_slash dstDir <? 2)%nat
          then
            (wrap (Some (Errorf
               ("prohibit copying the content for the top level of directory "
                +:+ srcDir +:+ " or " +:+ dstDir))), w)
          else
            let '((_, err), w1) :=
              RunFunc (CopyDirectory_fn source destination overWrite)
                procName HostProcDirectory 0 w in
            (wrap err, w1)
      end
  end.

Definition CreateDirectory_fn (path : string) (modTime : Z)
    : closure world := fun w0 =>
  utils_CreateDirectory path modTime w0.

Definition CreateDirectory (procName path : string) (modTime : Z) (w : world)
    : (string * option error) * world :=
  let wrap err := errors_Wrapf err ("failed to create directory " +:+ path) in
  let '((rawResult, err), w1) :=
    RunFunc (CreateDirectory_fn path modTime) procName HostProcDirectory 0 w in
  match err with
  | Some _ => (("", wrap err), w1)
  | None =>
      match rawResult with
      | AnyString result => ((result, wrap None), w1)
      | _ => (("", wrap (Some (ErrCast (AnyString "") rawResult))), w1)
      end
  end.

(** The closure of [DeleteDirectory]: stat, then remove. *)
Definition DeleteDirectory_fn (dir : string) : closure world := fun w0 =>
  match os_Stat dir w0 with
  | ((_, Some err), w1) =>
      if os_IsNotExist err then ((AnyNil, None), w1)
      else ((AnyNil, Some err), w1)
  | ((_, None), w1) =>
      let '(e, w2) := os_RemoveAll dir w1 in ((AnyNil, e), w2)
  end.

Definition DeleteDirectory (procName directory : string) (w : world)
    : option error * world :=
  let wrap err := errors_Wrapf err
    ("failed to remove host directory " +:+ directory) in
  match filepath_Abs (os_Getwd w) (filepath_Clean directory) with
  | (_, Some err) => (wrap (Some err), w)
  | (dir, None) =>
      if (strings_Count_slash dir <? 2)%nat then
        (wrap (Some (Errorf
           ("prohibit removing the top level of directory " +:+ dir))), w)
      else
        let '((_, err), w1) :=
          RunFunc (DeleteDirectory_fn dir) procName HostProcDirectory 0 w in
        (wrap err, w1)
  end.

Definition ReadDirectory_fn (directory : string)
    : closure world := fun w0 =>
  let '((l, e), w1) := os_ReadDir directory w0 in ((AnyDirEntries l, e), w1).

Definition ReadDirectory (procName directory : string) (w : world)
    : (list DirEntry * option error) * world :=
  let wrap err := errors_Wrapf err ("failed to read directory " +:+ directory) in
  let '((rawResult, err), w1) :=
    RunFunc (ReadDirectory_fn directory) procName HostProcDirectory 0 w in
  match err with
  | Some _ => (([], wrap err), w1)
  | None =>
      match rawResult with
      | AnyDirEntries result => ((result, wrap None), w1)
      | _ => (([], wrap (Some (ErrCast (AnyDirEntries []) rawResult))), w1)
      end
  end.

Definition CopyFiles_fn (sourcePath destinationPath : string) (doOverWrite : bool)
    : closure world := fun w0 =>
  let '(e, w1) := utils_CopyFiles sourcePath destinationPath doOverWrite w0 in
  ((AnyString "", e), w1).

Definition CopyFiles (procName sourcePath destinationPath : string)
    (doOverWrite : bool) (w : world) : option error * world :=
  let wrap err := errors_Wrapf err
    ("failed to copy files from " +:+ sourcePath +:+ " to " +:+ destinationPath) in
  let '((_, err), w1) :=
    RunFunc (CopyFiles_fn sourcePath destinationPath doOverWrite)
      procName HostProcDirectory 0 w in
  (wrap err, w1).

Definition GetEmptyFiles_fn (directory : string)
    : closure world := fun w0 =>
  utils_GetEmptyFiles directory w0.

Definition GetEmptyFiles (procName directory : string) (w : world)
    : (list string * option error) * world :=
  let wrap err := errors_Wrapf err ("failed to get empty files in " +:+ directory) in
  let '((rawResult, err), w1) :=
    RunFunc (GetEmptyFiles_fn directory) procName HostProcDirectory 0 w in
  match err with
  | Some _ => (([], wrap err), w1)
  | None =>
      match rawResult with
      | AnyStrings result => ((result, wrap None), w1)
      | _ => (([], wrap (Some (ErrCast (AnyStrings []) rawResult))), w1)
      end
  end.

Definition GetFileInfo_fn (path : string)
    : closure world := fun w0 =>
  let '((fi, e), w1) := os_Stat path w0 in ((any_of_FileInfo fi, e), w1).

Definition GetFileInfo (procName path : string) (w : world)
    : (option FileInfo * option error) * world :=
  let wrap err := errors_Wrapf err ("failed to get file info of " +:+ path) in
  let '((rawResult, err), w1) :=
    RunFunc (GetFileInfo_fn path) procName HostProcDirectory 0 w in
  match err with
  | Some _ => ((None, wrap err), w1)
  | None =>
      match rawResult with
      | AnyFileInfo result => ((Some result, wrap None), w1)
      | _ => ((None, wrap (Some (ErrCast AnyNil rawResult))), w1)
      end
  end.

Definition ReadFileContent_fn (filePath : string)
    : closure world := fun w0 =>
  utils_ReadFileContent filePath w0.

Definition ReadFileContent (procName filePath : string) (w : world)
    : (string * option error) * world :=
  let wrap err := errors_Wrapf err ("failed to read file content of " +:+ filePath) in
  let '((rawResult, err), w1) :=
    RunFunc (ReadFileContent_fn filePath) procName HostProcDirectory 0 w in
  match err with
  | Some _ => (("", wrap err), w1)
  | None =>
      match rawResult with
      | AnyString result => ((result, wrap None), w1)
      | _ => (("", wrap (Some (ErrCast (AnyString "") rawResult))), w1)
      end
  end.

Definition SyncFile_fn (filePath : string)
    : closure world := fun w0 =>
  let '(e, w1) := utils_SyncFile filePath w0 in ((AnyNil, e), w1).

Definition SyncFile (procName filePath : string) (w : world)
    : option error * world :=
  let wrap err := errors_Wrapf err ("failed to sync file " +:+ filePath) in
  let '((_, err), w1) :=
    RunFunc (SyncFile_fn filePath) procName HostProcDirectory 0 w in
  (wrap err, w1).

(** [WriteFile], [DeletePath] and [GetDiskStat] declare [err] as a local
    variable and their results are unnamed: [return err] copies the value
    into the result before the deferred function runs, and the deferred
    function then reassigns only the local.  [err_local] is that local
    after the deferred call; it is not what the caller receives. *)
Definition WriteFile_fn (filePath data : string)
    : closure world := fun w0 =>
  let '(e, w1) := os_WriteFile filePath data w0 in ((AnyString "", e), w1).

Definition WriteFile (procName filePath data : string) (w : world)
    : option error * world :=
  let '((_, err), w1) :=
    RunFunc (WriteFile_fn filePath data) procName HostProcDirectory 0 w in
  let returned := err in
  let err_local := errors_Wrapf err ("failed to write file " +:+ filePath) in
  (returned, w1).

Definition DeletePath_fn (path : string)
    : closure world := fun w0 =>
  let '(e, w1) := os_RemoveAll path w0 in ((AnyString "", e), w1).

Definition DeletePath (procName path : string) (w : world)
    : option error * world :=
  let '((_, err), w1) :=
    RunFunc (DeletePath_fn path) procName HostProcDirectory 0 w in
  let returned := err in
  let err_local := errors_Wrapf err ("failed to delete path " +:+ path) in
  (returned, w1).

Definition GetDiskStat_fn (path : string)
    : closure world := fun w0 =>
  utils_GetDiskStat path w0.

Definition GetDiskStat (procName path : string) (w : world)
    : (option DiskStat * option error) * world :=
  let '((rawResult, err), w1) :=
    RunFunc (GetDiskStat_fn path) procName HostProcDirectory 0 w in
  match err with
  | Some _ =>
      let returned := err in
      let err_local := errors_Wrapf err ("failed to get disk stat " +:+ path) in
      ((None, returned), w1)
  | None =>
      match rawResult with
      | AnyDiskStat result => ((Some result, None), w1)
      | _ =>
          let returned := Some (ErrCast (AnyDiskStat (mkDiskStat "" 0 0)) rawResult) in
          let err_local := errors_Wrapf err ("failed to get disk stat " +:+ path) in
          ((None, returned), w1)
      end
  end.

Definition LockFile_fn (path : string)
    : closure world := fun w0 =>
  utils_LockFile path w0.

Definition LockFile (procName path : string) (w : world)
    : (option os_File * option error) * world :=
  let wrap err := errors_Wrapf err ("failed to lock file " +:+ path) in
  let '((rawResult, err), w1) :=
    RunFunc (LockFile_fn path) procName HostProcDirectory 0 w in
  match err with
  | Some _ => ((None, wrap err), w1)
  | None =>
      match rawResult with
      | AnyFile result => ((result, wrap None), w1)
      | _ => ((None, wrap (Some (ErrCast (AnyFile None) rawResult))), w1)
      end
  end.

End Wrappers.

(** ** [FileLock] *)

(** A [chan struct{}] used only for closing. *)
Inductive chan := ChanNil | ChanOpen | ChanClosed.

(** The goroutines that touch a [FileLock]: the caller of [Lock], the
    acquisition goroutine and the release waiter. *)
Inductive goroutine := GCaller | GAcquirer | GWaiter.

(** The struct; [mutex] records who holds the [sync.Mutex], if anybody. *)
Record FileLock := mkFileLock {
  FilePath : string;
  File : option os_File;
  Timeout : Z;
  done : chan;
  mutex : option goroutine
}.

Definition set_File (f : option os_File) (l : FileLock) : FileLock :=
  mkFileLock (FilePath l) f (Timeout l) (done l) (mutex l).
Definition set_done (c : chan) (l : FileLock) : FileLock :=
  mkFileLock (FilePath l) (File l) (Timeout l) c (mutex l).
Definition set_mutex (m : option goroutine) (l : FileLock) : FileLock :=
  mkFileLock (FilePath l) (File l) (Timeout l) (done l) m.

(** A call either returns or panics. *)
Inductive outcome (A : Type) :=
| Returns (a : A)
| Panics (msg : string).
Arguments Returns {A} a.
Arguments Panics {A} msg.

(** The builtin [close]. *)
Definition close (c : chan) : outcome chan :=
  match c with
  | ChanOpen => Returns ChanClosed
  | ChanClosed => Panics "close of closed channel"
  | ChanNil => Panics "close of nil channel"
  end.

Definition NewLock `{Types} (filepath : string) (timeout : Z) : FileLock :=
  let timeout := if timeout =? 0 then FileLockDefaultTimeout else timeout in
  {| FilePath := filepath; File := None; Timeout := timeout;
     done := ChanOpen; mutex := None |}.

Definition Unlock (lock : FileLock) : outcome FileLock :=
  match close (done lock) with
  | Returns c => Returns (set_done c lock)
  | Panics msg => Panics msg
  end.

(** *** [Lock] as a transition system

    [Lock] runs up to three goroutines over the shared struct.  A state
    holds the struct, the two buffered channels, the deadline of the
    context, one program counter per goroutine and the host.  Every
    transition is one statement (or one run of statements that touch no
    shared variable) of the function. *)

Inductive caller_pc :=
| CSelect                              (* at the select *)
| CTimedOut                            (* case <-ctx.Done() taken, before mutex.Lock *)
| CHolding                             (* mutex held, before the handle test *)
| CReturned (err : option error).      (* Lock has returned *)

Inductive acquirer_pc :=
| AStart                               (* before mutex.Lock *)
| ALocking                             (* mutex held, before LockFile *)
| AGot (result : option os_File) (err : option error)
| ARelease                             (* before the deferred mutex.Unlock *)
| ADone.

Inductive waiter_pc :=
| WNotStarted
| WWaiting                             (* at <-lock.done *)
| WWoken                               (* before mutex.Lock *)
| WHolding                             (* mutex held *)
| WDone.

Record lock_run (world : Type) := mkRun {
  lk : FileLock;
  resultCh : nat;
  errCh : list error;
  ctx_done : bool;
  caller : caller_pc;
  acquirer : acquirer_pc;
  waiter : waiter_pc;
  panicked : bool;
  host : world
}.
Arguments mkRun {world}.
Arguments lk {world}.
Arguments resultCh {world}.
Arguments errCh {world}.
Arguments ctx_done {world}.
Arguments caller {world}.
Arguments acquirer {world}.
Arguments waiter {world}.
Arguments panicked {world}.
Arguments host {world}.

Inductive action :=
| Deadline        (* the context's deadline passes *)
| AcqMutex        (* acquirer: lock.mutex.Lock() *)
| AcqLockFile     (* acquirer: result, err := LockFile(types.ProcessNone, lock.FilePath) *)
| AcqPublish      (* acquirer: errCh <- err, or lock.File = result; resultCh <- struct{}{} *)
| AcqRelease      (* acquirer: deferred lock.mutex.Unlock() *)
| CallerRecv      (* caller: case <-resultCh, start the waiter, return nil *)
| CallerTimeout   (* caller: case <-ctx.Done() *)
| CallerMutex     (* caller: lock.mutex.Lock() *)
| CallerCleanup   (* caller: the handle test, the return, the deferred mutex.Unlock() *)
| WaiterWake      (* waiter: <-lock.done *)
| WaiterMutex     (* waiter: lock.mutex.Lock() *)
| WaiterCleanup   (* waiter: the handle test, the deferred mutex.Unlock() *)
| CallUnlock.     (* the owner of the lock calls lock.Unlock() *)

Section Lock.
Context {world : Type} `{Types} `{Host world}.
Variable RunFunc : executor world.

(** The [case <-ctx.Done()] branch once the mutex is held: what [Lock]
    returns, and the struct and host it leaves.  The deferred
    [errors.Wrapf] of [Lock] reassigns a local of a function with an
    unnamed result, so the values returned here reach the caller as they
    are. *)
Definition Lock_timeout (lock : FileLock) (w : world)
    : (error * FileLock) * world :=
  match File lock with
  | Some f =>
      match utils_UnlockFile f w with
      | (Some err, w1) =>
          ((Wrapf err ("failed to unlock timed out lock file " +:+ FilePath lock),
            lock), w1)
      | (None, w1) =>
          ((Errorf ("timed out waiting for file to lock " +:+ FilePath lock),
            set_File None lock), w1)
      end
  | None =>
      ((Errorf ("timed out waiting for file to lock " +:+ FilePath lock), lock), w)
  end.

(** The body of the release waiter once the mutex is held; an unlock
    error is only logged. *)
Definition Lock_release (lock : FileLock) (w : world) : FileLock * world :=
  match File lock with
  | Some f =>
      let '(_, w1) := utils_UnlockFile f w in (set_File None lock, w1)
  | None => (lock, w)
  end.

(** The state in which [Lock] reaches its select: channels empty, the
    acquisition goroutine started. *)
Definition Lock_start (lock : FileLock) (w : world) : lock_run world :=
  mkRun lock 0%nat [] false CSelect AStart WNotStarted false w.

Definition with_lk (l : FileLock) (s : lock_run world) : lock_run world :=
  mkRun l (resultCh s) (errCh s) (ctx_done s) (caller s) (acquirer s)
    (waiter s) (panicked s) (host s).
Definition with_caller (c : caller_pc) (s : lock_run world) : lock_run world :=
  mkRun (lk s) (resultCh s) (errCh s) (ctx_done s) c (acquirer s)
    (waiter s) (panicked s) (host s).
Definition with_acquirer (a : acquirer_pc) (s : lock_run world) : lock_run world :=
  mkRun (lk s) (resultCh s) (errCh s) (ctx_done s) (caller s) a
    (waiter s) (panicked s) (host s).
Definition with_waiter (x : waiter_pc) (s : lock_run world) : lock_run world :=
  mkRun (lk s) (resultCh s) (errCh s) (ctx_done s) (caller s) (acquirer s)
    x (panicked s) (host s).
Definition with_host (w : world) (s : lock_run world) : lock_run world :=
  mkRun (lk s) (resultCh s) (errCh s) (ctx_done s) (caller s) (acquirer s)
    (waiter s) (panicked s) w.

Definition mutex_free (s : lock_run world) : bool :=
  match mutex (lk s) with None => true | Some _ => false end.

(** One transition; [None] when the action is not enabled. *)
Definition step (a : action) (s : lock_run world) : option (lock_run world) :=
  if panicked s then None else
  match a with
  | Deadline =>
      if ctx_done s then None
      else Some (mkRun (lk s) (resultCh s) (errCh s) true (caller s)
                   (acquirer s) (waiter s) (panicked s) (host s))
  | AcqMutex =>
      match acquirer s with
      | AStart =>
          if mutex_free s
          then Some (with_acquirer ALocking (with_lk (set_mutex (Some GAcquirer) (lk s)) s))
          else None
      | _ => None
      end
  | AcqLockFile =>
      match acquirer s with
      | ALocking =>
          let '((result, err), w1) :=
            LockFile RunFunc ProcessNone (FilePath (lk s)) (host s) in
          Some (with_acquirer (AGot result err) (with_host w1 s))
      | _ => None
      end
  | AcqPublish =>
      match acquirer s with
      | AGot result (Some err) =>
          Some (mkRun (lk s) (resultCh s) (errCh s ++ [err]) (ctx_done s)
                  (caller s) ARelease (waiter s) (panicked s) (host s))
      | AGot result None =>
          Some (mkRun (set_File result (lk s)) (S (resultCh s)) (errCh s)
                  (ctx_done s) (caller s) ARelease (waiter s) (panicked s) (host s))
      | _ => None
      end
  | AcqRelease =>
      match acquirer s with
      | ARelease => Some (with_acquirer ADone (with_lk (set_mutex None (lk s)) s))
      | _ => None
      end
  | CallerRecv =>
      match caller s, resultCh s with
      | CSelect, S n =>
          Some (mkRun (lk s) n (errCh s) (ctx_done s) (CReturned None)
                  (acquirer s) WWaiting (panicked s) (host s))
      | _, _ => None
      end
  | CallerTimeout =>
      match caller s with
      | CSelect => if ctx_done s then Some (with_caller CTimedOut s) else None
      | _ => None
      end
  | CallerMutex =>
      match caller s with
      | CTimedOut =>
          if mutex_free s
          then Some (with_caller CHolding (with_lk (set_mutex (Some GCaller) (lk s)) s))
          else None
      | _ => None
      end
  | CallerCleanup =>
      match caller s with
      | CHolding =>
          let '((err, l1), w1) := Lock_timeout (lk s) (host s) in
          Some (with_caller (CReturned (Some err))
                  (with_host w1 (with_lk (set_mutex None l1) s)))
      | _ => None
      end
  | WaiterWake =>
      match waiter s, done (lk s) with
      | WWaiting, ChanClosed => Some (with_waiter WWoken s)
      | _, _ => None
      end
  | WaiterMutex =>
      match waiter s with
      | WWoken =>
          if mutex_free s
          then Some (with_waiter WHolding (with_lk (set_mutex (Some GWaiter) (lk s)) s))
          else None
      | _ => None
      end
  | WaiterCleanup =>
      match waiter s with
      | WHolding =>
          let '(l1, w1) := Lock_release (lk s) (host s) in
          Some (with_waiter WDone (with_host w1 (with_lk (set_mutex None l1) s)))
      | _ => None
      end
  | CallUnlock =>
      match Unlock (lk s) with
      | Returns l1 => Some (with_lk l1 s)
      | Panics _ =>
          Some (mkRun (lk s) (resultCh s) (errCh s) (ctx_done s) (caller s)
                  (acquirer s) (waiter s) true (host s))
      end
  end.

(** A schedule is a list of actions; it runs while they are enabled. *)
Fixpoint run (sched : list action) (s : lock_run world) : option (lock_run world) :=
  match sched with
  | [] => Some s
  | a :: rest =>
      match step a s with
      | Some s1 => run rest s1
      | None => None
      end
  end.

End Lock.

(** ** [GetDefaultProcessName] *)

Section DefaultProcess.
Context {world : Type} `{Types}.

(** [GetOSDistro] of package [namespace] is not part of the sources at
    hand; it is taken as a parameter, so that every outcome of the
    detection is covered. *)
Variable GetOSDistro : world -> (string * option error) * world.

Definition GetDefaultProcessName (w : world) : string * world :=
  match GetOSDistro w with
  | ((_, Some err), w1) => (ProcessNone, w1)
  | ((osDistro, None), w1) =>
      if String.eqb osDistro OSDistroTalosLinux then (ProcessKubelet, w1)
      else (ProcessNone, w1)
  end.

End DefaultProcess.

(** ** A concrete host

    A small file system with a log of the calls made, used to run the
    definitions above on concrete inputs. *)

Inductive syscall :=
| SysStat (path : string)
| SysRemoveAll (path : string)
| SysReadDir (path : string)
| SysWriteFile (path data : string)
| SysCopyFiles (src dst : string)
| SysMkdir (path : string)
| SysFsync (path : string)
| SysStatfs (path : string)
| SysFlock (path : string)
| SysFunlock (fd : os_File).

Record sim_world := mkSim {
  cwd : option string;               (* None: os.Getwd fails *)
  files : gset string;               (* the paths that exist *)
  stat_denied : gset string;         (* stat fails with EACCES *)
  read_only : gset string;       (* removal fails with EPERM, writing with EACCES *)
  flocks : gmap string os_File;      (* advisory locks held: path to descriptor *)
  next_fd : os_File;
  unlock_broken : bool;              (* UnlockFile fails with EBADF *)
  syscalls : list syscall            (* the calls made, oldest first *)
}.

Definition log_call (c : syscall) (w : sim_world) : sim_world :=
  mkSim (cwd w) (files w) (stat_denied w) (read_only w) (flocks w)
    (next_fd w) (unlock_broken w) (syscalls w ++ [c]).
Definition set_files (f : gset string) (w : sim_world) : sim_world :=
  mkSim (cwd w) f (stat_denied w) (read_only w) (flocks w)
    (next_fd w) (unlock_broken w) (syscalls w).
Definition set_flocks (m : gmap string os_File) (n : os_File) (w : sim_world)
  : sim_world :=
  mkSim (cwd w) (files w) (stat_denied w) (read_only w) m
    n (unlock_broken w) (syscalls w).

(** [p] itself or a path below it. *)
Definition at_or_below (p q : string) : bool :=
  String.eqb p q || String.prefix (p +:+ "/") q.

Definition sim_Stat (p : string) (w : sim_world)
  : (option FileInfo * option error) * sim_world :=
  let w1 := log_call (SysStat p) w in
  if decide (p ∈ stat_denied w) then ((None, Some (PathError "stat" p EACCES)), w1)
  else if decide (p ∈ files w) then ((Some (mkFileInfo p 0 true), None), w1)
  else ((None, Some (PathError "stat" p ENOENT)), w1).

Definition sim_RemoveAll (p : string) (w : sim_world) : option error * sim_world :=
  let w1 := log_call (SysRemoveAll p) w in
  if decide (p ∈ read_only w) then (Some (PathError "unlinkat" p EPERM), w1)
  else (None, set_files (filter (fun q => at_or_below p q = false) (files w)) w1).

Definition sim_LockFile (p : string) (w : sim_world)
  : (any * option error) * sim_world :=
  let w1 := log_call (SysFlock p) w in
  match flocks w !! p with
  | Some _ => ((AnyFile None, Some (Errno EWOULDBLOCK)), w1)
  | None =>
      ((AnyFile (Some (next_fd w)), None),
       set_flocks (<[p := next_fd w]> (flocks w)) (S (next_fd w)) w1)
  end.

Definition sim_UnlockFile (f : os_File) (w : sim_world) : option error * sim_world :=
  let w1 := log_call (SysFunlock f) w in
  if unlock_broken w then (Some (Errno EBADF), w1)
  else (None, set_flocks (filter (fun kv => snd kv <> f) (flocks w)) (next_fd w) w1).

#[export] Instance SimHost : Host sim_world := {
  os_Getwd w :=
    match cwd w with
    | Some d => (d, None)
    | None => ("", Some (Errno ENOENT))
    end;
  os_Stat := sim_Stat;
  os_RemoveAll := sim_RemoveAll;
  os_ReadDir p w := (([], None), log_call (SysReadDir p) w);
  os_WriteFile p data w :=
    if decide (p ∈ read_only w)
    then (Some (PathError "open" p EACCES), log_call (SysWriteFile p data) w)
    else (None, set_files ({[p]} ∪ files w) (log_call (SysWriteFile p data) w));
  utils_CopyFiles src dst ow w :=
    (None, set_files ({[dst]} ∪ files w) (log_call (SysCopyFiles src dst) w));
  utils_CreateDirectory p t w :=
    ((AnyString p, None), set_files ({[p]} ∪ files w) (log_call (SysMkdir p) w));
  utils_GetEmptyFiles p w := ((AnyStrings [], None), log_call (SysReadDir p) w);
  utils_ReadFileContent p w := ((AnyString "", None), w);
  utils_SyncFile p w := (None, log_call (SysFsync p) w);
  utils_GetDiskStat p w :=
    ((AnyDiskStat (mkDiskStat p 0 0), None), log_call (SysStatfs p) w);
  utils_LockFile := sim_LockFile;
  utils_UnlockFile := sim_UnlockFile
}.

(** The constants of [types] used to run examples; the process name "none"
    is the spec's, the others stand for whatever the package declares. *)
#[export] Instance SimTypes : Types := {
  ProcessNone := "none";
  ProcessKubelet := "kubelet";
  OSDistroTalosLinux := "talos";
  HostProcDirectory := "/host/proc";
  FileLockDefaultTimeout := 86400000000000;
  ErrNamespaceCastResultFmt zero raw := "failed to cast the result"
}.

(** A host with [/var/lib/test-dir] and a file in it, working directory
    [/root], nothing locked, no call made yet. *)
Definition sim0 : sim_world :=
  mkSim (Some "/root")
    {[ "/var"; "/var/lib"; "/var/lib/test-dir"; "/var/lib/test-dir/a"; "/tmp"; "/tmp/f" ]}
    ∅ ∅ ∅ 3%nat false [].

(** ** Vocabulary of the statements *)

(** [strings.Contains] *)
Fixpoint strings_Contains (s sub : string) : bool :=
  String.prefix sub s ||
  match s with
  | EmptyString => false
  | String _ r => strings_Contains r sub
  end.

(** The wrappers that cast the executor's [interface{}] result. *)
Inductive typed_wrapper :=
| TCreateDirectory | TReadDirectory | TGetEmptyFiles | TGetFileInfo
| TReadFileContent | TGetDiskStat | TLockFile.

(** The dynamic type each of them asserts. *)
Definition has_expected_type (k : typed_wrapper) (raw : any) : bool :=
  match k, raw with
  | TCreateDirectory, AnyString _ => true
  | TReadDirectory, AnyDirEntries _ => true
  | TGetEmptyFiles, AnyStrings _ => true
  | TGetFileInfo, AnyFileInfo _ => true
  | TReadFileContent, AnyString _ => true
  | TGetDiskStat, AnyDiskStat _ => true
  | TLockFile, AnyFile _ => true
  | _, _ => false
  end.

(** The zero result each of them returns on failure, and the zero value of
    the asserted type that the cast error is formatted with. *)
Definition zero_result (k : typed_wrapper) : any :=
  match k with
  | TCreateDirectory | TReadFileContent => AnyString ""
  | TReadDirectory => AnyDirEntries []
  | TGetEmptyFiles => AnyStrings []
  | TGetFileInfo => AnyNil
  | TGetDiskStat => AnyDiskStatPtr None
  | TLockFile => AnyFile None
  end.
Definition cast_zero (k : typed_wrapper) : any :=
  match k with
  | TGetDiskStat => AnyDiskStat (mkDiskStat "" 0 0)
  | _ => zero_result k
  end.

Section Typed.
Context {world : Type} `{Types} `{Host world}.
Variable RunFunc : executor world.

Definition typed_fn (k : typed_wrapper) (path : string) (modTime : Z)
    : closure world :=
  match k with
  | TCreateDirectory => CreateDirectory_fn path modTime
  | TReadDirectory => ReadDirectory_fn path
  | TGetEmptyFiles => GetEmptyFiles_fn path
  | TGetFileInfo => GetFileInfo_fn path
  | TReadFileContent => ReadFileContent_fn path
  | TGetDiskStat => GetDiskStat_fn path
  | TLockFile => LockFile_fn path
  end.

(** A call of the wrapper, its typed result seen as an [interface{}]. *)
Definition typed_call (k : typed_wrapper) (procName path : string) (modTime : Z)
    (w : world) : (any * option error) * world :=
  match k with
  | TCreateDirectory =>
      let '((r, e), w1) := CreateDirectory RunFunc procName path modTime w in
      ((AnyString r, e), w1)
  | TReadDirectory =>
      let '((r, e), w1) := ReadDirectory RunFunc procName path w in
      ((AnyDirEntries r, e), w1)
  | TGetEmptyFiles =>
      let '((r, e), w1) := GetEmptyFiles RunFunc procName path w in
      ((AnyStrings r, e), w1)
  | TGetFileInfo =>
      let '((r, e), w1) := GetFileInfo RunFunc procName path w in
      ((any_of_FileInfo r, e), w1)
  | TReadFileContent =>
      let '((r, e), w1) := ReadFileContent RunFunc procName path w in
      ((AnyString r, e), w1)
  | TGetDiskStat =>
      let '((r, e), w1) := GetDiskStat RunFunc procName path w in
      ((AnyDiskStatPtr r, e), w1)
  | TLockFile =>
      let '((r, e), w1) := LockFile RunFunc procName path w in
      ((AnyFile r, e), w1)
  end.

(** [Lock] has returned, the acquisition goroutine has finished and no
    release waiter was ever started. *)
Definition abandoned (s : lock_run world) : Prop :=
  (exists e, caller s = CReturned e) /\ acquirer s = ADone /\ waiter s = WNotStarted.

End Typed.

(** The executor that enters the namespace without failure. *)
Definition RunFunc_ok : executor sim_world := RunFunc_model NsOk.

(** A host on which releasing a lock fails. *)
Definition sim_broken_unlock : sim_world :=
  mkSim (Some "/root") {[ "/tmp"; "/tmp/f" ]} ∅ ∅ ∅ 3%nat true [].

(** A host on which [/tmp/f] can be neither written nor removed. *)
Definition sim_read_only : sim_world :=
  mkSim (Some "/root") {[ "/tmp"; "/tmp/f" ]} ∅ {[ "/tmp/f" ]} ∅ 3%nat false [].

(** The schedule in which the deadline passes and [Lock] returns before
    the acquisition goroutine has taken the mutex. *)
Definition late_acquisition : list action :=
  [Deadline; CallerTimeout; CallerMutex; CallerCleanup;
   AcqMutex; AcqLockFile; AcqPublish; AcqRelease].

(** The schedule in which the acquisition finishes while the caller, the
    deadline passed, waits for the mutex. *)
Definition handle_landed : list action :=
  [AcqMutex; Deadline; CallerTimeout; AcqLockFile; AcqPublish; AcqRelease;
   CallerMutex].

(** The state [late_acquisition] ends in, for a lock on [/tmp/f] with a
    timeout of 50ms on the host [sim0]. *)
Definition late_state : lock_run sim_world :=
  let s0 := Lock_start (NewLock "/tmp/f" 50000000) sim0 in
  match run RunFunc_ok late_acquisition s0 with
  | Some s => s
  | None => s0
  end.

(** The state [handle_landed] ends in on a host [w]: the caller holds the
    mutex and is about to test the handle. *)
Definition landed_state (w : sim_world) : lock_run sim_world :=
  let s0 := Lock_start (NewLock "/tmp/f" 50000000) w in
  match run RunFunc_ok handle_landed s0 with
  | Some s => s
  | None => s0
  end.

(** ** Vocabulary of the further properties *)

(** Whether a goroutine is between its [mutex.Lock()] and its
    [mutex.Unlock()]. *)
Definition acquirer_holds (a : acquirer_pc) : bool :=
  match a with
  | ALocking | AGot _ _ | ARelease => true
  | AStart | ADone => false
  end.
Definition caller_holds (c : caller_pc) : bool :=
  match c with
  | CHolding => true
  | _ => false
  end.
Definition waiter_holds (x : waiter_pc) : bool :=
  match x with
  | WHolding => true
  | _ => false
  end.

(** The goroutines inside their critical section. *)
Definition holders {world : Type} (s : lock_run world) : list goroutine :=
  (if acquirer_holds (acquirer s) then [GAcquirer] else []) ++
  (if caller_holds (caller s) then [GCaller] else []) ++
  (if waiter_holds (waiter s) then [GWaiter] else []).

(** The acquisition goroutine has not sent on either channel yet. *)
Definition before_publish (a : acquirer_pc) : bool :=
  match a with
  | AStart | ALocking | AGot _ _ => true
  | ARelease | ADone => false
  end.

(** The caller has left the select through [case <-ctx.Done()]. *)
Definition took_timeout (c : caller_pc) : bool :=
  match c with
  | CTimedOut | CHolding | CReturned (Some _) => true
  | CSelect | CReturned None => false
  end.

Section Reachable.
Context {world : Type} `{Types} `{Host world}.
Variable RunFunc : executor world.

(** The states a call of [Lock] on [lock0] can be in, on a host that starts
    as [w0]. *)
Definition reachable (lock0 : FileLock) (w0 : world) (s : lock_run world) : Prop :=
  exists sched, run RunFunc sched (Lock_start lock0 w0) = Some s.

End Reachable.

(** A path element that [filepath.Clean] keeps as it is. *)
Definition plain_name (x : string) : Prop :=
  strings_Count_slash x = O /\ x <> "" /\ x <> "." /\ x <> "..".

(** The error contexts of the wrappers that cast. *)
Definition typed_context (k : typed_wrapper) (path : string) : string :=
  match k with
  | TCreateDirectory => "failed to create directory " +:+ path
  | TReadDirectory => "failed to read directory " +:+ path
  | TGetEmptyFiles => "failed to get empty files in " +:+ path
  | TGetFileInfo => "failed to get file info of " +:+ path
  | TReadFileContent => "failed to read file content of " +:+ path
  | TGetDiskStat => "failed to get disk stat " +:+ path
  | TLockFile => "failed to lock file " +:+ path
  end.

(** ** Package [utils]: slices and identifiers *)

(** [Contains]: the first element equal to [value] ends the loop. *)
Fixpoint Contains {T : Type} `{EqDecision T} (slice : list T) (value : T) : bool :=
  match slice with
  | [] => false
  | s :: rest => if decide (s = value) then true else Contains rest value
  end.

Fixpoint IsStringInSlice (strs : list string) (item : string) : bool :=
  match strs with
  | [] => false
  | str :: rest => if String.eqb str item then true else IsStringInSlice rest item
  end.

(** [RandomID], given the string [UUID()] drew and the constant
    [types.RandomIDDefaultLength]; slicing below zero panics. *)
Definition RandomID (RandomIDDefaultLength : Z) (uuid : string) (randomIDLenth : Z)
  : outcome string :=
  let randomIDLenth :=
    if randomIDLenth <=? 0 then RandomIDDefaultLength else randomIDLenth in
  if Z.of_nat (String.length uuid) >? randomIDLenth then
    if randomIDLenth <? 0 then Panics "slice bounds out of range"
    else Returns (substring 0 (Z.to_nat randomIDLenth) uuid)
  else Returns uuid.

(** ** Package [utils]: the system *)

(** [byte(b)] for an [int8]. *)
Definition byte_of_int8 (b : Z) : ascii := ascii_of_N (Z.to_N (b mod 256)).

(** The [int8] that holds a byte. *)
Definition int8_of_byte (c : ascii) : Z :=
  let n := Z.of_N (N_of_ascii c) in
  if n <? 128 then n else n - 256.

(** The loop of [GetKernelRelease] over [utsname.Release]: bytes are
    appended up to the first zero. *)
Fixpoint release_bytes (Release : list Z) : string :=
  match Release with
  | [] => ""
  | b :: rest =>
      if b =? 0 then "" else String (byte_of_int8 b) (release_bytes rest)
  end.

(** [GetKernelRelease], given what [syscall.Uname] left in
    [utsname.Release] and the error it returned. *)
Definition GetKernelRelease (uname : list Z * option error) : string * option error :=
  match uname with
  | (_, Some err) => ("", Some err)
  | (Release, None) => (release_bytes Release, None)
  end.

Definition newline : ascii := "010"%char.
Definition quote : ascii := "034"%char.

(** [strings.HasPrefix] and [strings.TrimPrefix] *)
Definition strings_HasPrefix (s prefix : string) : bool := String.prefix prefix s.

Fixpoint string_drop (n : nat) (s : string) : string :=
  match n, s with
  | O, _ => s
  | S n', String _ r => string_drop n' r
  | S _, EmptyString => EmptyString
  end.

Definition strings_TrimPrefix (s prefix : string) : string :=
  if strings_HasPrefix s prefix then string_drop (String.length prefix) s else s.

(** [strings.Trim(s, cutset)] for a cutset of one byte. *)
Fixpoint trim_left (c : ascii) (s : string) : string :=
  match s with
  | String a r => if Ascii.eqb a c then trim_left c r else s
  | EmptyString => EmptyString
  end.
Fixpoint trim_right (c : ascii) (s : string) : string :=
  match s with
  | EmptyString => EmptyString
  | String a r =>
      match trim_right c r with
      | EmptyString => if Ascii.eqb a c then EmptyString else String a EmptyString
      | r' => String a r'
      end
  end.
Definition strings_Trim (s : string) (c : ascii) : string := trim_right c (trim_left c s).

Section OSDistro.
(** [types.OsReleaseFilePath] *)
Variable OsReleaseFilePath : string.

(** [GetOSDistro] of package [utils]; [cached] is [types.CachedOSDistro]
    before the call and the last component of the result is that variable
    after it.  The function calls itself once the cache is set; [fuel]
    bounds the depth of the calls.  The deferred [errors.Wrapf] assigns a
    local of a function with unnamed results and changes nothing. *)
Fixpoint GetOSDistro_fuel (fuel : nat) (osReleaseContent cached : string)
  : option ((string * option error) * string) :=
  match fuel with
  | O => None
  | S fuel' =>
      if negb (String.eqb cached "") then Some ((cached, None), cached)
      else
        match find (fun line => strings_HasPrefix line "ID=")
                (strings_Split newline osReleaseContent) with
        | Some line =>
            let id := strings_TrimPrefix line "ID=" in
            let id := strings_Trim id quote in
            GetOSDistro_fuel fuel' "" id
        | None =>
            Some (("", Some (Errorf ("failed to find ID field in "
                                     +:+ OsReleaseFilePath))), cached)
        end
  end.

(** Two levels of calls are enough (see [GetOSDistro_fuel_enough]). *)
Definition GetOSDistro (osReleaseContent cached : string)
  : option ((string * option error) * string) :=
  GetOSDistro_fuel 2 osReleaseContent cached.

End OSDistro.

(** [types.BlockDeviceInfo], with the fields the source sets. *)
Record BlockDeviceInfo := mkBlockDeviceInfo {
  Name : string;
  Major : Z;
  Minor : Z
}.

(** The two errors of [strconv.ParseInt]. *)
Inductive strconv_error := ErrSyntax | ErrRange.

Definition digit_of (c : ascii) : option Z :=
  let n := Z.of_N (N_of_ascii c) in
  if (48 <=? n) && (n <=? 57) then Some (n - 48) else None.

Fixpoint parse_digits (s : string) (acc : Z) : option Z :=
  match s with
  | EmptyString => Some acc
  | String c r =>
      match digit_of c with
      | Some d => parse_digits r (acc * 10 + d)
      | None => None
      end
  end.

(** [strconv.ParseInt(s, 10, 64)]: an optional sign, then decimal digits;
    out of range the nearest bound is returned with [ErrRange]. *)
Definition strconv_ParseInt (s : string) : Z * option strconv_error :=
  match s with
  | EmptyString => (0, Some ErrSyntax)
  | String c r =>
      let neg := Ascii.eqb c "-" in
      let digits := if Ascii.eqb c "+" || neg then r else s in
      match digits with
      | EmptyString => (0, Some ErrSyntax)
      | _ =>
          match parse_digits digits 0 with
          | None => (0, Some ErrSyntax)
          | Some un =>
              if neg then
                if un >? 2 ^ 63 then (- 2 ^ 63, Some ErrRange) else (- un, None)
              else
                if un >=? 2 ^ 63 then (2 ^ 63 - 1, Some ErrRange) else (un, None)
          end
      end
  end.

(** The errors of the closure [readDeviceNumber]. *)
Inductive number_error :=
| InvalidFileFormat
| NumError (e : strconv_error).

Definition readDeviceNumber (numbers : list string) (index : nat)
  : Z * option number_error :=
  if (length numbers <=? index)%nat then (0, Some InvalidFileFormat)
  else
    match strconv_ParseInt (nth index numbers "") with
    | (_, Some err) => (0, Some (NumError err))
    | (number, None) => (number, None)
    end.

(** [filepath.Join]: from the first non-empty element on, the elements
    are joined with the separator and the result is cleaned. *)
Fixpoint filepath_JoinList (elem : list string) : string :=
  match elem with
  | [] => ""
  | e :: rest =>
      if String.eqb e "" then filepath_JoinList rest
      else filepath_Clean (join_slash elem)
  end.

Section BlockDevices.
Context {world : Type}.
(** [types.SysClassBlockDirectory], [strings.TrimSpace] and the two
    injected readers. *)
Variable SysClassBlockDirectory : string.
Variable strings_TrimSpace : string -> string.
Variable readDirFn : string -> world -> (list DirEntry * option error) * world.
Variable readFileFn : string -> world -> (string * option error) * world.

(** The loop over the devices; [deviceInfo] is the map built so far.  An
    unreadable file ends the call, an unparsable one is skipped. *)
Fixpoint scan_devices (devices : list DirEntry)
    (deviceInfo : gmap string BlockDeviceInfo) (w : world)
  : (option (gmap string BlockDeviceInfo) * option error) * world :=
  match devices with
  | [] => ((Some deviceInfo, None), w)
  | device :: rest =>
      let deviceName := de_Name device in
      let devicePath :=
        filepath_JoinList [SysClassBlockDirectory; deviceName; "dev"] in
      match readFileFn devicePath w with
      | ((_, Some err), w1) => ((None, Some err), w1)
      | ((data, None), w1) =>
          let numbers := strings_Split ":"%char (strings_TrimSpace data) in
          match readDeviceNumber numbers 0 with
          | (_, Some _) => scan_devices rest deviceInfo w1
          | (major, None) =>
              match readDeviceNumber numbers 1 with
              | (_, Some _) => scan_devices rest deviceInfo w1
              | (minor, None) =>
                  scan_devices rest
                    (<[deviceName := mkBlockDeviceInfo deviceName major minor]>
                       deviceInfo) w1
              end
          end
      end
  end.

Definition getSystemBlockDeviceInfo (w : world)
  : (option (gmap string BlockDeviceInfo) * option error) * world :=
  match readDirFn SysClassBlockDirectory w with
  | ((_, Some err), w1) => ((None, Some err), w1)
  | ((devices, None), w1) => scan_devices devices ∅ w1
  end.

(** What the loop stores for the device [deviceName] when the host is [w]:
    nothing when its file is unreadable or does not parse. *)
Definition device_entry (w : world) (deviceName : string) : option BlockDeviceInfo :=
  match readFileFn (filepath_JoinList [SysClassBlockDirectory; deviceName; "dev"]) w with
  | ((_, Some _), _) => None
  | ((data, None), _) =>
      let numbers := strings_Split ":"%char (strings_TrimSpace data) in
      match readDeviceNumber numbers 0, readDeviceNumber numbers 1 with
      | (major, None), (minor, None) =>
          Some (mkBlockDeviceInfo deviceName major minor)
      | _, _ => None
      end
  end.

End BlockDevices.

(** Samples to run the functions of [utils] on: a [/sys/class/block] whose
    devices are [names], where [sda] and [sdb] have well-formed [dev] files,
    [loop0] has one without a colon and every other file is missing; and a
    stand-in for [strings.TrimSpace] that trims line feeds only. *)
Definition sample_readDir (names : list string) (dir : string) (w : unit)
  : (list DirEntry * option error) * unit :=
  ((map (fun n => mkDirEntry n false) names, None), w).
Definition sample_readFile (p : string) (w : unit) : (string * option error) * unit :=
  if String.eqb p "/sys/class/block/sda/dev" then (("8:0" +:+ String newline "", None), w)
  else if String.eqb p "/sys/class/block/sdb/dev" then
    (("8:16" +:+ String newline "", None), w)
  else if String.eqb p "/sys/class/block/loop0/dev" then (("7", None), w)
  else (("", Some (PathError "open" p ENOENT)), w).
Definition sample_TrimSpace (s : string) : string := strings_Trim s newline.

(** A host on which [/tmp/f] is already locked by somebody else, and one
    without a working directory. *)
Definition sim_locked : sim_world :=
  mkSim (Some "/root") {[ "/tmp"; "/tmp/f" ]} ∅ ∅ {[ "/tmp/f" := 9%nat ]} 10%nat false [].
Definition sim_no_cwd : sim_world :=
  mkSim None {[ "/tmp"; "/tmp/f" ]} ∅ ∅ ∅ 3%nat false [].

(** The schedule in which the acquisition ends, with or without success,
    before the deadline passes; the state it ends in on a host [w] once the
    caller has left the select. *)
Definition early_acquisition : list action :=
  [AcqMutex; AcqLockFile; AcqPublish; AcqRelease].
Definition failed_state : lock_run sim_world :=
  let s0 := Lock_start (NewLock "/tmp/f" 50000000) sim_locked in
  match run RunFunc_ok
          (early_acquisition ++ [Deadline; CallerTimeout; CallerMutex; CallerCleanup])
          s0 with
  | Some s => s
  | None => s0
  end.
Definition locked_state : lock_run sim_world :=
  let s0 := Lock_start (NewLock "/tmp/f" 50000000) sim0 in
  match run RunFunc_ok (early_acquisition ++ [CallerRecv]) s0 with
  | Some s => s
  | None => s0
  end.

(** The error of the timeout branch of [Lock]. *)
Definition timeout_error (path : string) : error :=
  Errorf ("timed out waiting for file to lock " +:+ path).

(** What holds of every state a [Lock] on [lock0] can reach when [lock0]
    has no handle yet: used as the induction hypothesis of the properties
    of the transition system. *)
Definition Lock_invariant {world : Type} (lock0 : FileLock) (s : lock_run world)
  : Prop :=
  FilePath (lk s) = FilePath lock0 /\
  (took_timeout (caller s) = true -> ctx_done s = true) /\
  (before_publish (acquirer s) = true -> errCh s = []) /\
  (before_publish (acquirer s) = true \/ errCh s <> [] ->
   File (lk s) = None /\ resultCh s = 0%nat /\ waiter s = WNotStarted /\
   forall r, caller s = CReturned r -> r = Some (timeout_error (FilePath lock0))) /\
  (forall e, caller s = CReturned (Some e) ->
   e = timeout_error (FilePath lock0) \/
   exists e0, e = Wrapf e0 ("failed to unlock timed out lock file " +:+ FilePath lock0)) /\
  (waiter s = WNotStarted <-> caller s <> CReturned None) /\
  (waiter s = WDone -> File (lk s) = None) /\
  (resultCh s + length (errCh s) <= 1)%nat.

(** A path element as [filepath.Clean] keeps it: not empty, no separator. *)
Definition kept_elem (e : string) : Prop := e <> "" /\ strings_Count_slash e = O.

(** The schedule in which the caller takes the deadline branch while the
    acquisition goroutine holds the mutex, up to the point where that
    goroutine has released it; the state it ends in on a host [w]. *)
Definition timed_out_state (w : sim_world) : lock_run sim_world :=
  let s0 := Lock_start (NewLock "/tmp/f" 50000000) w in
  match run RunFunc_ok
          [AcqMutex; Deadline; CallerTimeout; AcqLockFile; AcqPublish; AcqRelease]
          s0 with
  | Some s => s
  | None => s0
  end.

(** * Properties *)

(** ** Strings *)

Lemma prefix_app (p x : string) : String.prefix p (p +:+ x) = true.
Proof.
  induction p as [|c p IH]; simpl.
  - now destruct x.
  - destruct (Ascii.ascii_dec c c) as [_|n]; [exact IH | now elim n].
Qed.

Lemma strings_Contains_prefix (s sub : string) :
  String.prefix sub s = true -> strings_Contains s sub = true.
Proof. intros E. destruct s; cbn [strings_Contains]; rewrite E; reflexivity. Qed.

Lemma strings_Contains_app (a p b : string) :
  strings_Contains (a +:+ p +:+ b) p = true.
Proof.
  induction a as [|c a IH].
  - change (strings_Contains (p +:+ b) p = true).
    apply strings_Contains_prefix, prefix_app.
  - change (strings_Contains (String c (a +:+ p +:+ b)) p = true).
    cbn [strings_Contains]. rewrite IH. apply orb_true_r.
Qed.

(** ** [NewLock] and [Unlock] *)

(** C7: [NewLock(path, 0)] builds a lock whose [Timeout] is the default
    timeout constant, which is not zero when the constant is not; for a
    nonzero [t], [NewLock(path, t)] keeps [t]. *)
Theorem NewLock_Timeout `{Types} (path : string) (t : Z) :
  Timeout (NewLock path 0) = FileLockDefaultTimeout /\
  (FileLockDefaultTimeout <> 0 -> Timeout (NewLock path 0) <> 0) /\
  (t <> 0 -> Timeout (NewLock path t) = t).
Proof.
  unfold NewLock; simpl. repeat split.
  - intros Hd; exact Hd.
  - intros Ht. destruct (Z.eqb_spec t 0); [contradiction | reflexivity].
Qed.

Lemma NewLock_Timeout_witness :
  Timeout (NewLock "/tmp/f" 0) = 86400000000000 /\
  Timeout (NewLock "/tmp/f" 0) <> 0 /\
  Timeout (NewLock "/tmp/f" 50000000) = 50000000.
Proof.
  destruct (@NewLock_Timeout SimTypes "/tmp/f" 50000000) as [H0 [H1 H2]].
  split; [exact H0 | split; [apply H1 | apply H2]]; simpl; lia.
Defined.

(** C9: once [Unlock] has returned, a second [Unlock] on the same lock
    panics with the run-time error of closing a closed channel; it is not
    ignored. *)
Theorem Unlock_twice_panics (lock lock1 : FileLock) :
  Unlock lock = Returns lock1 ->
  Unlock lock1 = Panics "close of closed channel".
Proof.
  unfold Unlock, close. destruct lock as [p f t d m]; simpl.
  destruct d; intros E; try discriminate.
  injection E as <-. reflexivity.
Qed.

Lemma Unlock_twice_panics_witness :
  Unlock (NewLock "/tmp/f" 0) = Returns (set_done ChanClosed (NewLock "/tmp/f" 0)) /\
  Unlock (set_done ChanClosed (NewLock "/tmp/f" 0)) = Panics "close of closed channel".
Proof.
  split; [reflexivity |].
  apply (Unlock_twice_panics (NewLock "/tmp/f" 0)). reflexivity.
Defined.

(** ** [GetDefaultProcessName] *)

(** C8: [GetDefaultProcessName] returns a process name for every outcome
    of the detection: the "none" name when the detection fails, the kubelet
    name when it reports Talos Linux and the "none" name for every other
    distribution; with the two names distinct, the kubelet name is returned
    exactly for a successful detection of Talos Linux. *)
Theorem GetDefaultProcessName_cases {world : Type} `{Types}
    (GetOSDistro : world -> (string * option error) * world) (w : world) :
  let '((osDistro, err), w1) := GetOSDistro w in
  let name := fst (GetDefaultProcessName GetOSDistro w) in
  snd (GetDefaultProcessName GetOSDistro w) = w1 /\
  (err <> None -> name = ProcessNone) /\
  (err = None -> osDistro = OSDistroTalosLinux -> name = ProcessKubelet) /\
  (err = None -> osDistro <> OSDistroTalosLinux -> name = ProcessNone) /\
  (ProcessKubelet <> ProcessNone ->
   (name = ProcessKubelet <-> err = None /\ osDistro = OSDistroTalosLinux)).
Proof.
  unfold GetDefaultProcessName.
  destruct (GetOSDistro w) as [[osDistro err] w1].
  destruct err as [e|]; simpl.
  - intuition congruence.
  - destruct (String.eqb_spec osDistro OSDistroTalosLinux) as [E|E]; simpl;
      intuition congruence.
Qed.

Lemma GetDefaultProcessName_cases_witness :
  fst (GetDefaultProcessName (fun w : unit => (("talos", None), w)) tt) = "kubelet" /\
  fst (GetDefaultProcessName (fun w : unit => (("ubuntu", None), w)) tt) = "none" /\
  fst (GetDefaultProcessName
         (fun w : unit => (("talos", Some (Errno ENOENT)), w)) tt) = "none".
Proof.
  pose proof (@GetDefaultProcessName_cases unit SimTypes
                (fun w => (("talos", None), w)) tt) as H1.
  pose proof (@GetDefaultProcessName_cases unit SimTypes
                (fun w => (("ubuntu", None), w)) tt) as H2.
  pose proof (@GetDefaultProcessName_cases unit SimTypes
                (fun w => (("talos", Some (Errno ENOENT)), w)) tt) as H3.
  cbv beta iota zeta in H1, H2, H3.
  destruct H1 as (_ & _ & H1 & _), H2 as (_ & _ & _ & H2 & _), H3 as (_ & H3 & _).
  split; [apply H1; reflexivity | split; [apply H2 | apply H3]];
    [reflexivity | discriminate | discriminate].
Defined.

(** ** The wrappers *)

Section WrapperFacts.
Context {world : Type} `{Types} `{Host world}.
Variable RunFunc : executor world.

(** The guard of [DeleteDirectory]: a resolved directory with fewer than two
    separators is refused, and neither the executor nor the host is used. *)
Lemma DeleteDirectory_rejects (procName directory dir : string) (w : world) :
  filepath_Abs (os_Getwd w) (filepath_Clean directory) = (dir, None) ->
  (strings_Count_slash dir < 2)%nat ->
  DeleteDirectory RunFunc procName directory w =
    (Some (Wrapf (Errorf ("prohibit removing the top level of directory " +:+ dir))
             ("failed to remove host directory " +:+ directory)), w).
Proof.
  intros Habs Hlt. unfold DeleteDirectory. rewrite Habs.
  destruct (Nat.ltb_spec (strings_Count_slash dir) 2) as [_|Hge]; [reflexivity | lia].
Qed.

(** Past the guard, [DeleteDirectory] hands its closure to the executor and
    wraps the error that comes back. *)
Lemma DeleteDirectory_passes (procName directory dir : string) (w : world) :
  filepath_Abs (os_Getwd w) (filepath_Clean directory) = (dir, None) ->
  (2 <= strings_Count_slash dir)%nat ->
  DeleteDirectory RunFunc procName directory w =
    (errors_Wrapf
       (snd (fst (RunFunc (DeleteDirectory_fn dir) procName HostProcDirectory 0 w)))
       ("failed to remove host directory " +:+ directory),
     snd (RunFunc (DeleteDirectory_fn dir) procName HostProcDirectory 0 w)).
Proof.
  intros Habs Hge. unfold DeleteDirectory. rewrite Habs.
  destruct (Nat.ltb_spec (strings_Count_slash dir) 2) as [Hlt|_]; [lia |].
  destruct (RunFunc _ _ _ _ _) as [[raw err] w1]. reflexivity.
Qed.

(** The guard of [CopyDirectory], on the source or on the destination. *)
Lemma CopyDirectory_rejects (procName source destination srcDir dstDir : string)
    (overWrite : bool) (w : world) :
  filepath_Abs (os_Getwd w) (filepath_Clean source) = (srcDir, None) ->
  filepath_Abs (os_Getwd w) (filepath_Clean destination) = (dstDir, None) ->
  (strings_Count_slash srcDir < 2 \/ strings_Count_slash dstDir < 2)%nat ->
  CopyDirectory RunFunc procName source destination overWrite w =
    (Some (Wrapf
       (Errorf ("prohibit copying the content for the top level of directory "
                +:+ srcDir +:+ " or " +:+ dstDir))
       ("failed to copy host content from " +:+ source +:+ " to " +:+ destination)),
     w).
Proof.
  intros Hs Hd Hlt. unfold CopyDirectory. rewrite Hs, Hd.
  destruct (Nat.ltb_spec (strings_Count_slash srcDir) 2) as [_|Hs2]; [reflexivity |].
  destruct (Nat.ltb_spec (strings_Count_slash dstDir) 2) as [_|Hd2]; [reflexivity |].
  lia.
Qed.

(** C5: when the executor succeeds with a value whose dynamic type is not
    the one the wrapper asserts, each of [CreateDirectory], [ReadDirectory],
    [GetEmptyFiles], [GetFileInfo], [ReadFileContent], [GetDiskStat] and
    [LockFile] returns its zero result together with an error whose cause is
    the cast error built from the zero value and the raw result. *)
Theorem typed_wrapper_cast_failure (k : typed_wrapper) (procName path : string)
    (modTime : Z) (w w1 : world) (raw : any) :
  RunFunc (typed_fn k path modTime) procName HostProcDirectory 0 w
    = ((raw, None), w1) ->
  has_expected_type k raw = false ->
  exists e,
    typed_call RunFunc k procName path modTime w = ((zero_result k, Some e), w1) /\
    errors_Cause e = ErrCast (cast_zero k) raw.
Proof.
  intros Hrun Hty.
  destruct k; simpl in Hrun, Hty |- *;
    unfold CreateDirectory, ReadDirectory, GetEmptyFiles, GetFileInfo,
      ReadFileContent, GetDiskStat, LockFile;
    rewrite Hrun; destruct raw; try discriminate Hty;
    simpl; eexists; split; reflexivity.
Qed.

(** [WriteFile], [DeletePath] and [GetDiskStat] return the executor's error
    as it is; [SyncFile], whose result is named, returns it wrapped. *)
Lemma unnamed_result_drops_context (procName path data : string) (w : world) :
  fst (WriteFile RunFunc procName path data w)
    = snd (fst (RunFunc (WriteFile_fn path data) procName HostProcDirectory 0 w)) /\
  fst (DeletePath RunFunc procName path w)
    = snd (fst (RunFunc (DeletePath_fn path) procName HostProcDirectory 0 w)) /\
  (forall e,
     snd (fst (RunFunc (GetDiskStat_fn path) procName HostProcDirectory 0 w)) = Some e ->
     snd (fst (GetDiskStat RunFunc procName path w)) = Some e) /\
  fst (SyncFile RunFunc procName path w)
    = errors_Wrapf
        (snd (fst (RunFunc (SyncFile_fn path) procName HostProcDirectory 0 w)))
        ("failed to sync file " +:+ path).
Proof.
  unfold WriteFile, DeletePath, GetDiskStat, SyncFile. repeat split.
  - destruct (RunFunc _ _ _ _ _) as [[raw err] w1]. reflexivity.
  - destruct (RunFunc _ _ _ _ _) as [[raw err] w1]. reflexivity.
  - intros e. destruct (RunFunc _ _ _ _ _) as [[raw err] w1]. simpl.
    intros ->. reflexivity.
  - destruct (RunFunc _ _ _ _ _) as [[raw err] w1]. reflexivity.
Qed.

End WrapperFacts.

Lemma typed_wrapper_cast_failure_witness :
  exists e,
    typed_call (fun _ _ _ _ w => ((AnyNil, None), w)) TGetDiskStat
      "none" "/var/lib/longhorn" 0 sim0
      = ((AnyDiskStatPtr None, Some e), sim0) /\
    errors_Cause e = ErrCast (AnyDiskStat (mkDiskStat "" 0 0)) AnyNil.
Proof.
  apply (typed_wrapper_cast_failure (fun _ _ _ _ w => ((AnyNil, None), w))
           TGetDiskStat "none" "/var/lib/longhorn" 0 sim0 sim0 AnyNil);
    reflexivity.
Defined.

(** C4: on the host where [/tmp/f] is read-only, [WriteFile] and
    [DeletePath] return the error of the operation as the executor handed
    it back, and when the namespace switch fails [WriteFile] returns the
    executor's error, whose message does not name the path; the sibling
    [DeleteDirectory] wraps the same removal error with its context. *)
Theorem WriteFile_DeletePath_return_bare_error :
  fst (WriteFile RunFunc_ok "none" "/tmp/f" "x" sim_read_only)
    = Some (PathError "open" "/tmp/f" EACCES) /\
  fst (DeletePath RunFunc_ok "none" "/tmp/f" sim_read_only)
    = Some (PathError "unlinkat" "/tmp/f" EPERM) /\
  fst (WriteFile (RunFunc_model (NsSwitchFails (Errno EPERM)))
         "none" "/tmp/f" "x" sim0)
    = Some (Wrapf (Errno EPERM) "failed to switch namespace") /\
  Error (Wrapf (Errno EPERM) "failed to switch namespace")
    = "failed to switch namespace: operation not permitted" /\
  strings_Contains (Error (Wrapf (Errno EPERM) "failed to switch namespace"))
    "/tmp/f" = false /\
  fst (DeleteDirectory RunFunc_ok "none" "/tmp/f" sim_read_only)
    = Some (Wrapf (PathError "unlinkat" "/tmp/f" EPERM)
              "failed to remove host directory /tmp/f").
Proof. repeat split; vm_compute; reflexivity. Qed.

(** C2, as stated, fails: [/tmp] and [/] have fewer than two separators,
    yet [DeletePath] on [/tmp] returns no error and has removed the
    directory with what was in it, and [CopyFiles] into [/] returns no error
    and has made the copy. *)
Lemma DeletePath_CopyFiles_not_guarded :
  filepath_Abs (os_Getwd sim0) (filepath_Clean "/tmp") = ("/tmp", None) /\
  strings_Count_slash "/tmp" = 1%nat /\
  fst (DeletePath RunFunc_ok "none" "/tmp" sim0) = None /\
  syscalls (snd (DeletePath RunFunc_ok "none" "/tmp" sim0)) = [SysRemoveAll "/tmp"] /\
  bool_decide ("/tmp/f" ∈ files sim0) = true /\
  bool_decide ("/tmp/f" ∈ files (snd (DeletePath RunFunc_ok "none" "/tmp" sim0)))
    = false /\
  filepath_Abs (os_Getwd sim0) (filepath_Clean "/") = ("/", None) /\
  fst (CopyFiles RunFunc_ok "none" "/var/lib/test-dir" "/" true sim0) = None /\
  syscalls (snd (CopyFiles RunFunc_ok "none" "/var/lib/test-dir" "/" true sim0))
    = [SysCopyFiles "/var/lib/test-dir" "/"].
Proof. repeat split; vm_compute; reflexivity. Qed.

(** C2, amended: for a path whose cleaned absolute form has fewer than two
    separators, [DeleteDirectory] and [CopyDirectory] (for its source or its
    destination) return a "prohibit" error and leave the host as it was,
    whatever the executor and the host are: nothing was copied or removed. *)
Theorem top_level_guard {world : Type} `{Types} `{Host world}
    (RunFunc : executor world) (procName : string) (w : world) :
  (forall directory dir,
     filepath_Abs (os_Getwd w) (filepath_Clean directory) = (dir, None) ->
     (strings_Count_slash dir < 2)%nat ->
     exists e,
       DeleteDirectory RunFunc procName directory w = (Some e, w) /\
       errors_Cause e
         = Errorf ("prohibit removing the top level of directory " +:+ dir)) /\
  (forall source destination srcDir dstDir overWrite,
     filepath_Abs (os_Getwd w) (filepath_Clean source) = (srcDir, None) ->
     filepath_Abs (os_Getwd w) (filepath_Clean destination) = (dstDir, None) ->
     (strings_Count_slash srcDir < 2 \/ strings_Count_slash dstDir < 2)%nat ->
     exists e,
       CopyDirectory RunFunc procName source destination overWrite w = (Some e, w) /\
       errors_Cause e
         = Errorf ("prohibit copying the content for the top level of directory "
                   +:+ srcDir +:+ " or " +:+ dstDir)).
Proof.
  split.
  - intros directory dir Habs Hlt.
    rewrite (DeleteDirectory_rejects RunFunc procName directory dir w Habs Hlt).
    eexists; split; reflexivity.
  - intros source destination srcDir dstDir overWrite Hs Hd Hlt.
    rewrite (CopyDirectory_rejects RunFunc procName source destination
               srcDir dstDir overWrite w Hs Hd Hlt).
    eexists; split; reflexivity.
Qed.

Lemma top_level_guard_witness :
  (exists e,
     DeleteDirectory RunFunc_ok "none" "/tmp/" sim0 = (Some e, sim0) /\
     errors_Cause e = Errorf "prohibit removing the top level of directory /tmp") /\
  (exists e,
     CopyDirectory RunFunc_ok "none" "/var/lib/test-dir" "/" true sim0
       = (Some e, sim0) /\
     errors_Cause e
       = Errorf ("prohibit copying the content for the top level of directory "
                 +:+ "/var/lib/test-dir" +:+ " or " +:+ "/")).
Proof.
  destruct (@top_level_guard sim_world SimTypes SimHost RunFunc_ok "none" sim0)
    as [Hdel Hcopy].
  split.
  - apply (Hdel "/tmp/" "/tmp"); [reflexivity | simpl; lia].
  - apply (Hcopy "/var/lib/test-dir" "/" "/var/lib/test-dir" "/" true);
      [reflexivity | reflexivity | right; simpl; lia].
Defined.

(** ** [FileLock.Lock] *)

Lemma append_assoc (a b c : string) : (a +:+ b) +:+ c = a +:+ b +:+ c.
Proof.
  induction a as [|x a IH]; [reflexivity |].
  change (String x ((a +:+ b) +:+ c) = String x (a +:+ b +:+ c)).
  now rewrite IH.
Qed.

Lemma append_empty_r (a : string) : a +:+ "" = a.
Proof.
  induction a as [|x a IH]; [reflexivity |].
  change (String x (a +:+ "") = String x a). now rewrite IH.
Qed.

Lemma strings_Contains_mid (a p b : string) :
  strings_Contains ((a +:+ p) +:+ b) p = true.
Proof. rewrite append_assoc. apply strings_Contains_app. Qed.

Lemma strings_Contains_end (a p : string) : strings_Contains (a +:+ p) p = true.
Proof.
  rewrite <- (append_empty_r p) at 1. apply strings_Contains_app.
Qed.

Section LockFacts.
Context {world : Type} `{Types} `{Host world}.
Variable RunFunc : executor world.

(** Whatever [Lock_timeout] returns names the path of the lock. *)
Lemma Lock_timeout_names_path (lock : FileLock) (w : world) :
  strings_Contains (Error (fst (fst (Lock_timeout lock w)))) (FilePath lock) = true.
Proof.
  unfold Lock_timeout.
  destruct (File lock) as [f|].
  - destruct (utils_UnlockFile f w) as [[e|] w1]; cbn [fst Error].
    + apply strings_Contains_mid.
    + apply strings_Contains_end.
  - cbn [fst Error]. apply strings_Contains_end.
Qed.

(** Once [Lock] has returned on its timeout branch and the acquisition
    goroutine has finished, no transition changes the handle or the host:
    the only enabled actions are the deadline and [Unlock]. *)
Lemma abandoned_step (a : action) (s s' : lock_run world) :
  abandoned s -> step RunFunc a s = Some s' ->
  abandoned s' /\ File (lk s') = File (lk s) /\ host s' = host s.
Proof.
  intros [[e Hc] [Ha Hw]] Hstep.
  unfold step in Hstep. destruct (panicked s); [discriminate |].
  destruct a; rewrite ?Hc, ?Ha, ?Hw in Hstep; try discriminate.
  - destruct (ctx_done s); [discriminate |]. injection Hstep as <-.
    unfold abandoned; simpl. rewrite ?Hc, ?Ha, ?Hw. repeat split; eauto.
  - destruct (Unlock (lk s)) as [l1|msg] eqn:HU; injection Hstep as <-.
    + unfold abandoned; simpl. rewrite ?Hc, ?Ha, ?Hw.
      unfold Unlock in HU. destruct (close (done (lk s))); [| discriminate].
      injection HU as <-. simpl. repeat split; eauto.
    + unfold abandoned; simpl. rewrite ?Hc, ?Ha, ?Hw. repeat split; eauto.
Qed.

Lemma abandoned_run (sched : list action) (s s' : lock_run world) :
  abandoned s -> run RunFunc sched s = Some s' ->
  abandoned s' /\ File (lk s') = File (lk s) /\ host s' = host s.
Proof.
  revert s. induction sched as [|a sched IH]; intros s Hab Hrun; simpl in Hrun.
  - injection Hrun as <-. auto.
  - destruct (step RunFunc a s) as [s1|] eqn:Hstep; [| discriminate].
    destruct (abandoned_step a s s1 Hab Hstep) as (Hab1 & Hf1 & Hh1).
    destruct (IH s1 Hab1 Hrun) as (Hab' & Hf' & Hh').
    rewrite Hf', Hh'. auto.
Qed.

(** The last step of the deadline branch, from any state in which the
    caller holds the mutex: what is returned and what becomes of the
    handle. *)
Lemma Lock_timeout_handling (s : lock_run world) :
  panicked s = false ->
  caller s = CHolding ->
  exists err l1 w1,
    step RunFunc CallerCleanup s
      = Some (with_caller (CReturned (Some err))
                (with_host w1 (with_lk (set_mutex None l1) s))) /\
    FilePath l1 = FilePath (lk s) /\
    strings_Contains (Error err) (FilePath (lk s)) = true /\
    match File (lk s) with
    | None =>
        err = Errorf ("timed out waiting for file to lock " +:+ FilePath (lk s)) /\
        File l1 = None /\ w1 = host s
    | Some f =>
        match utils_UnlockFile f (host s) with
        | (None, w2) =>
            err = Errorf ("timed out waiting for file to lock " +:+ FilePath (lk s)) /\
            File l1 = None /\ w1 = w2
        | (Some e, w2) =>
            err = Wrapf e ("failed to unlock timed out lock file " +:+ FilePath (lk s)) /\
            File l1 = Some f /\ w1 = w2
        end
    end.
Proof.
  intros Hp Hc. unfold step. rewrite Hp, Hc.
  pose proof (Lock_timeout_names_path (lk s) (host s)) as Hname.
  destruct (Lock_timeout (lk s) (host s)) as [[err l1] w1] eqn:HL.
  exists err, l1, w1. split; [reflexivity |].
  simpl in Hname. unfold Lock_timeout in HL.
  destruct (File (lk s)) as [f|] eqn:Hf.
  - destruct (utils_UnlockFile f (host s)) as [[e|] w2];
      injection HL as <- <- <-; simpl; rewrite ?Hf; auto.
  - injection HL as <- <- <-; simpl; rewrite ?Hf; auto.
Qed.

End LockFacts.

(** C3, as stated, fails.  On a host where releasing the lock fails, the
    handle that landed is still set after the timeout handling and [Lock]
    returns the unlock error, not a timeout error; and for a lock with a
    timeout of 50ms that times out without a handle, the message of the
    error is "timed out waiting for file to lock /tmp/f", in which the
    duration does not occur. *)
Lemma Lock_timeout_not_as_stated :
  caller (landed_state sim_broken_unlock) = CHolding /\
  File (lk (landed_state sim_broken_unlock)) = Some 3%nat /\
  match step RunFunc_ok CallerCleanup (landed_state sim_broken_unlock) with
  | Some s =>
      File (lk s) = Some 3%nat /\
      caller s = CReturned (Some (Wrapf (Errno EBADF)
                                    "failed to unlock timed out lock file /tmp/f"))
  | None => False
  end /\
  Timeout (NewLock "/tmp/f" 50000000) = 50000000 /\
  match run RunFunc_ok [Deadline; CallerTimeout; CallerMutex; CallerCleanup]
          (Lock_start (NewLock "/tmp/f" 50000000) sim0) with
  | Some s =>
      caller s = CReturned (Some (Errorf "timed out waiting for file to lock /tmp/f")) /\
      Error (Errorf "timed out waiting for file to lock /tmp/f")
        = "timed out waiting for file to lock /tmp/f" /\
      strings_Contains "timed out waiting for file to lock /tmp/f" "50" = false
  | None => False
  end.
Proof. vm_compute. repeat split; reflexivity. Qed.

(** C1: a lock on [/tmp/f] with a timeout of 50ms, in the schedule where
    the deadline passes and [Lock] handles the timeout before the
    acquisition goroutine has taken the mutex.  [Lock] returns the timeout
    error having seen a nil handle; the goroutine then locks the file,
    stores the handle and ends; no release waiter exists.  From that state
    on, whatever happens next (including a call of [Unlock]), the handle
    stays set and the host is not touched: the file is never unlocked. *)
Theorem Lock_late_acquisition_keeps_handle :
  run RunFunc_ok late_acquisition (Lock_start (NewLock "/tmp/f" 50000000) sim0)
    = Some late_state /\
  caller late_state
    = CReturned (Some (Errorf "timed out waiting for file to lock /tmp/f")) /\
  acquirer late_state = ADone /\
  waiter late_state = WNotStarted /\
  File (lk late_state) = Some 3%nat /\
  flocks (host late_state) !! "/tmp/f" = Some 3%nat /\
  syscalls (host late_state) = [SysFlock "/tmp/f"] /\
  (forall sched s,
     run RunFunc_ok sched late_state = Some s ->
     File (lk s) = Some 3%nat /\ host s = host late_state).
Proof.
  split; [vm_compute; reflexivity |].
  split; [vm_compute; reflexivity |].
  split; [vm_compute; reflexivity |].
  split; [vm_compute; reflexivity |].
  split; [vm_compute; reflexivity |].
  split; [vm_compute; reflexivity |].
  split; [vm_compute; reflexivity |].
  intros sched s Hrun.
  assert (Hab : abandoned late_state).
  { split; [eexists; vm_compute; reflexivity | split; vm_compute; reflexivity]. }
  destruct (abandoned_run RunFunc_ok sched late_state s Hab Hrun) as (_ & Hf & Hh).
  split; [rewrite Hf; vm_compute; reflexivity | exact Hh].
Qed.

(** ** The reachable states of [Lock] *)

Section LockInvariants.
Context {world : Type} `{Types} `{Host world}.
Variable RunFunc : executor world.

Lemma run_snoc (sched : list action) (a : action) (s : lock_run world) :
  run RunFunc (sched ++ [a]) s =
    match run RunFunc sched s with
    | Some s1 => step RunFunc a s1
    | None => None
    end.
Proof.
  revert s. induction sched as [|b sched IH]; intros s; simpl.
  - destruct (step RunFunc a s); reflexivity.
  - destruct (step RunFunc b s) as [s1|]; [apply IH | reflexivity].
Qed.

(** Induction over the reachable states. *)
Lemma reachable_invariant (lock0 : FileLock) (w0 : world)
    (P : lock_run world -> Prop) :
  P (Lock_start lock0 w0) ->
  (forall a s s', P s -> step RunFunc a s = Some s' -> P s') ->
  forall s, reachable RunFunc lock0 w0 s -> P s.
Proof.
  intros Hinit Hstep s [sched Hrun]. revert s Hrun.
  induction sched as [|a sched IH] using rev_ind; intros s Hrun.
  - injection Hrun as <-. exact Hinit.
  - rewrite run_snoc in Hrun.
    destruct (run RunFunc sched (Lock_start lock0 w0)) as [s1|]; [| discriminate].
    exact (Hstep a s1 s (IH s1 eq_refl) Hrun).
Qed.

End LockInvariants.

(** ** Paths *)

Lemma append_cons (c : ascii) (a b : string) : String c a +:+ b = String c (a +:+ b).
Proof. reflexivity. Qed.

Lemma strings_Split_plain (x : string) :
  strings_Count_slash x = O -> strings_Split slash x = [x].
Proof.
  induction x as [|c x IH]; [reflexivity |].
  cbn [strings_Count_slash strings_Split].
  destruct (Ascii.eqb c slash); [discriminate |].
  intros E. rewrite (IH E). reflexivity.
Qed.

Lemma strings_Split_cons (x y : string) :
  strings_Count_slash x = O ->
  strings_Split slash (x +:+ String slash y) = x :: strings_Split slash y.
Proof.
  induction x as [|c x IH].
  - intros _. change (strings_Split slash (String slash y) = "" :: strings_Split slash y).
    cbn [strings_Split]. rewrite Ascii.eqb_refl. reflexivity.
  - rewrite append_cons. cbn [strings_Count_slash strings_Split].
    destruct (Ascii.eqb c slash); [discriminate |].
    intros E. rewrite (IH E). reflexivity.
Qed.

Lemma strings_Count_slash_app (a b : string) :
  strings_Count_slash (a +:+ b) = (strings_Count_slash a + strings_Count_slash b)%nat.
Proof.
  induction a as [|c a IH]; [reflexivity |].
  rewrite append_cons. cbn [strings_Count_slash].
  destruct (Ascii.eqb c slash); rewrite IH; reflexivity.
Qed.

Lemma join_slash_cons (x y : string) (r : list string) :
  join_slash (x :: y :: r) = x +:+ String slash (join_slash (y :: r)).
Proof. reflexivity. Qed.

Lemma strings_Split_join (comps : list string) :
  Forall plain_name comps -> comps <> [] ->
  strings_Split slash (join_slash comps) = comps.
Proof.
  induction comps as [|x [|y r] IH]; intros Hall Hne.
  - contradiction.
  - inversion Hall as [|? ? [Hx _] _]; subst. apply strings_Split_plain, Hx.
  - inversion Hall as [|? ? [Hx _] Hr]; subst.
    rewrite join_slash_cons, strings_Split_cons by exact Hx.
    rewrite IH; [reflexivity | exact Hr | discriminate].
Qed.

Lemma strings_Count_slash_join (comps : list string) :
  Forall plain_name comps ->
  strings_Count_slash (join_slash comps) = Nat.pred (length comps).
Proof.
  induction comps as [|x [|y r] IH]; intros Hall.
  - reflexivity.
  - inversion Hall as [|? ? [Hx _] _]; subst. exact Hx.
  - inversion Hall as [|? ? [Hx _] Hr]; subst.
    rewrite join_slash_cons, strings_Count_slash_app.
    cbn [strings_Count_slash]. rewrite Ascii.eqb_refl, (IH Hr), Hx. reflexivity.
Qed.

Lemma clean_elem_plain (rooted : bool) (stack : list string) (x : string) :
  plain_name x -> clean_elem rooted stack x = x :: stack.
Proof.
  intros (_ & H1 & H2 & H3). unfold clean_elem.
  destruct (String.eqb_spec x ""); [contradiction |].
  destruct (String.eqb_spec x "."); [contradiction |].
  destruct (String.eqb_spec x ".."); [contradiction |].
  reflexivity.
Qed.

Lemma fold_clean_plain (rooted : bool) (comps stack : list string) :
  Forall plain_name comps ->
  fold_left (clean_elem rooted) comps stack = (rev comps ++ stack)%list.
Proof.
  revert stack. induction comps as [|x r IH]; intros stack Hall; [reflexivity |].
  inversion Hall as [|? ? Hx Hr]; subst. simpl.
  rewrite (clean_elem_plain rooted stack x Hx), (IH _ Hr), <- app_assoc. reflexivity.
Qed.

Lemma filepath_Clean_plain (comps : list string) :
  Forall plain_name comps ->
  filepath_Clean ("/" +:+ join_slash comps) = "/" +:+ join_slash comps.
Proof.
  intros Hall.
  change ("/" +:+ join_slash comps) with (String slash (join_slash comps)).
  unfold filepath_Clean. rewrite Ascii.eqb_refl.
  cbn [strings_Split]. rewrite Ascii.eqb_refl.
  destruct comps as [|x r].
  - reflexivity.
  - rewrite (strings_Split_join (x :: r) Hall) by discriminate.
    change (fold_left (clean_elem true) ("" :: x :: r) [])
      with (fold_left (clean_elem true) (x :: r) []).
    rewrite (fold_clean_plain true (x :: r) [] Hall), app_nil_r, rev_involutive.
    reflexivity.
Qed.

Lemma strings_Split_slash_free (p : string) :
  Forall (fun e => strings_Count_slash e = O) (strings_Split slash p).
Proof.
  induction p as [|c p IH]; [repeat constructor |].
  cbn [strings_Split]. destruct (Ascii.eqb c slash) eqn:Ec.
  - constructor; [reflexivity | exact IH].
  - destruct (strings_Split slash p) as [|h t].
    + repeat constructor. cbn [strings_Count_slash]. rewrite Ec. reflexivity.
    + inversion IH as [|? ? Hh Ht]; subst. constructor; [| exact Ht].
      cbn [strings_Count_slash]. rewrite Ec. exact Hh.
Qed.

Lemma clean_elem_kept (rooted : bool) (stack : list string) (el : string) :
  strings_Count_slash el = O -> Forall kept_elem stack ->
  Forall kept_elem (clean_elem rooted stack el).
Proof.
  intros Hel Hst. unfold clean_elem.
  destruct (String.eqb_spec el ""); [exact Hst |].
  destruct (String.eqb_spec el "."); [exact Hst |]. simpl.
  destruct (String.eqb_spec el "..").
  - destruct stack as [|top rest].
    + destruct rooted; repeat constructor; assumption.
    + destruct (String.eqb top "..").
      * constructor; [split; assumption | exact Hst].
      * inversion Hst; assumption.
  - constructor; [split; assumption | exact Hst].
Qed.

Lemma fold_clean_kept (rooted : bool) (comps stack : list string) :
  Forall (fun e => strings_Count_slash e = O) comps -> Forall kept_elem stack ->
  Forall kept_elem (fold_left (clean_elem rooted) comps stack).
Proof.
  revert stack. induction comps as [|x r IH]; intros stack Hc Hs; [exact Hs |].
  inversion Hc; subst. simpl. apply IH; [assumption |].
  apply clean_elem_kept; assumption.
Qed.

Lemma join_slash_not_abs (kept : list string) :
  Forall kept_elem kept -> filepath_IsAbs (join_slash kept) = false.
Proof.
  destruct kept as [|x r]; [reflexivity |].
  intros Hall. inversion Hall as [|? ? [Hne Hx] _]; subst.
  destruct x as [|c x]; [contradiction |].
  assert (Hc : Ascii.eqb c slash = false).
  { cbn [strings_Count_slash] in Hx. destruct (Ascii.eqb c slash); [discriminate | reflexivity]. }
  destruct r as [|y r]; [exact Hc |].
  rewrite join_slash_cons, append_cons. exact Hc.
Qed.

Lemma filepath_Clean_not_abs (p : string) :
  filepath_IsAbs p = false -> filepath_IsAbs (filepath_Clean p) = false.
Proof.
  destruct p as [|c p]; [reflexivity |].
  cbn [filepath_IsAbs]. intros Hc. unfold filepath_Clean. rewrite Hc.
  pose proof (fold_clean_kept false (strings_Split slash (String c p)) []
                (strings_Split_slash_free _) ltac:(constructor)) as Hk.
  apply Forall_rev in Hk.
  destruct (rev _) as [|x r] eqn:E; [reflexivity |].
  apply join_slash_not_abs, Hk.
Qed.

(** ** [DeleteDirectory] at the guard and past it *)

(** C6: for every path, with [dir] its cleaned absolute form.  When [dir]
    has two separators or more, [DeleteDirectory] passes the guard: it hands
    the stat-and-remove closure for [dir] to the executor and returns what
    comes back, wrapped; with an executor that runs the closure and a
    directory that exists, the removal of [dir] is what happens.  When [dir]
    has fewer than two separators, it returns the "prohibit" error and the
    host is left as it was, whatever the executor.  A clean absolute path of
    [n] elements has [n] separators (one for the root), so the first case is
    that of two elements or more, such as [/var/lib/test-dir], and the second
    that of [/] and of one element, such as [/var]. *)
Theorem DeleteDirectory_guard {world : Type} `{Types} `{Host world}
    (RunFunc : executor world) (procName : string) (w : world) :
  (forall directory dir,
     filepath_Abs (os_Getwd w) (filepath_Clean directory) = (dir, None) ->
     (2 <= strings_Count_slash dir)%nat ->
     DeleteDirectory RunFunc procName directory w =
       (errors_Wrapf
          (snd (fst (RunFunc (DeleteDirectory_fn dir) procName HostProcDirectory 0 w)))
          ("failed to remove host directory " +:+ directory),
        snd (RunFunc (DeleteDirectory_fn dir) procName HostProcDirectory 0 w))) /\
  (forall directory dir fi w1,
     filepath_Abs (os_Getwd w) (filepath_Clean directory) = (dir, None) ->
     (2 <= strings_Count_slash dir)%nat ->
     os_Stat dir w = ((fi, None), w1) ->
     DeleteDirectory (RunFunc_model NsOk) procName directory w =
       (errors_Wrapf (fst (os_RemoveAll dir w1))
          ("failed to remove host directory " +:+ directory),
        snd (os_RemoveAll dir w1))) /\
  (forall directory dir,
     filepath_Abs (os_Getwd w) (filepath_Clean directory) = (dir, None) ->
     (strings_Count_slash dir < 2)%nat ->
     DeleteDirectory RunFunc procName directory w =
       (Some (Wrapf (Errorf ("prohibit removing the top level of directory " +:+ dir))
                ("failed to remove host directory " +:+ directory)), w)) /\
  (forall comps,
     Forall plain_name comps ->
     filepath_Abs (os_Getwd w) (filepath_Clean ("/" +:+ join_slash comps))
       = ("/" +:+ join_slash comps, None) /\
     strings_Count_slash ("/" +:+ join_slash comps) = S (Nat.pred (length comps))).
Proof.
  split; [| split; [| split]].
  - intros directory dir Habs Hge. apply DeleteDirectory_passes; assumption.
  - intros directory dir fi w1 Habs Hge Hstat.
    rewrite (DeleteDirectory_passes (RunFunc_model NsOk) procName directory dir w Habs Hge).
    unfold RunFunc_model, DeleteDirectory_fn. rewrite Hstat.
    destruct (os_RemoveAll dir w1) as [e w2]. reflexivity.
  - intros directory dir Habs Hlt. apply DeleteDirectory_rejects; assumption.
  - intros comps Hall. split.
    + rewrite (filepath_Clean_plain comps Hall).
      unfold filepath_Abs.
      change (filepath_IsAbs ("/" +:+ join_slash comps)) with true.
      cbv iota. rewrite (filepath_Clean_plain comps Hall). reflexivity.
    + change ("/" +:+ join_slash comps) with (String slash (join_slash comps)).
      cbn [strings_Count_slash]. rewrite Ascii.eqb_refl.
      rewrite (strings_Count_slash_join comps Hall). reflexivity.
Qed.

Lemma DeleteDirectory_guard_witness :
  DeleteDirectory RunFunc_ok "none" "/var/lib/test-dir" sim0 =
    (errors_Wrapf
       (fst (os_RemoveAll "/var/lib/test-dir" (log_call (SysStat "/var/lib/test-dir") sim0)))
       "failed to remove host directory /var/lib/test-dir",
     snd (os_RemoveAll "/var/lib/test-dir" (log_call (SysStat "/var/lib/test-dir") sim0))) /\
  DeleteDirectory RunFunc_ok "none" "/var/lib" sim0 =
    (errors_Wrapf
       (snd (fst (RunFunc_ok (DeleteDirectory_fn "/var/lib") "none" HostProcDirectory 0 sim0)))
       "failed to remove host directory /var/lib",
     snd (RunFunc_ok (DeleteDirectory_fn "/var/lib") "none" HostProcDirectory 0 sim0)) /\
  DeleteDirectory RunFunc_ok "none" "/var" sim0 =
    (Some (Wrapf (Errorf "prohibit removing the top level of directory /var")
             "failed to remove host directory /var"), sim0) /\
  strings_Count_slash ("/" +:+ join_slash ["var"; "lib"; "test-dir"]) = 3%nat /\
  fst (DeleteDirectory RunFunc_ok "none" "/var/lib/test-dir" sim0) = None /\
  syscalls (snd (DeleteDirectory RunFunc_ok "none" "/var/lib/test-dir" sim0))
    = [SysStat "/var/lib/test-dir"; SysRemoveAll "/var/lib/test-dir"] /\
  bool_decide (files (snd (DeleteDirectory RunFunc_ok "none" "/var/lib/test-dir" sim0))
               = {[ "/var"; "/var/lib"; "/tmp"; "/tmp/f" ]}) = true.
Proof.
  destruct (@DeleteDirectory_guard sim_world SimTypes SimHost RunFunc_ok "none" sim0)
    as (Hpass & Hremove & Hreject & Hdepth).
  split; [| split; [| split; [| split]]].
  - apply (Hremove "/var/lib/test-dir" "/var/lib/test-dir"
             (Some (mkFileInfo "/var/lib/test-dir" 0 true))
             (log_call (SysStat "/var/lib/test-dir") sim0));
      [reflexivity | simpl; lia | vm_compute; reflexivity].
  - apply (Hpass "/var/lib" "/var/lib"); [reflexivity | simpl; lia].
  - apply (Hreject "/var" "/var"); [reflexivity | simpl; lia].
  - destruct (Hdepth ["var"; "lib"; "test-dir"]) as [_ Hcount]; [| exact Hcount].
    repeat constructor; discriminate.
  - repeat split; vm_compute; reflexivity.
Defined.




Lemma Unlock_fields (lock l1 : FileLock) :
  Unlock lock = Returns l1 ->
  done lock = ChanOpen /\ l1 = set_done ChanClosed lock.
Proof.
  unfold Unlock, close. destruct (done lock); intros E; try discriminate.
  injection E as <-. auto.
Qed.

Section LockProperties.
Context {world : Type} `{Types} `{Host world}.
Variable RunFunc : executor world.

Lemma Lock_timeout_cases (lock l1 : FileLock) (w w1 : world) (err : error) :
  Lock_timeout lock w = ((err, l1), w1) ->
  FilePath l1 = FilePath lock /\
  (File lock = None -> err = timeout_error (FilePath lock) /\ File l1 = None) /\
  (err = timeout_error (FilePath lock) /\ File l1 = None \/
   exists e0, err = Wrapf e0 ("failed to unlock timed out lock file " +:+ FilePath lock)).
Proof.
  unfold Lock_timeout, timeout_error. destruct (File lock) as [f|] eqn:Hf.
  - destruct (utils_UnlockFile f w) as [[e|] w2]; intros E; injection E as <- <- <-;
      simpl; (split; [reflexivity | split; [discriminate |]]); eauto.
  - intros E; injection E as <- <- <-. rewrite Hf. auto.
Qed.

Lemma Lock_release_cases (lock l1 : FileLock) (w w1 : world) :
  Lock_release lock w = (l1, w1) ->
  FilePath l1 = FilePath lock /\ File l1 = None.
Proof.
  unfold Lock_release. destruct (File lock) as [f|] eqn:Hf.
  - destruct (utils_UnlockFile f w) as [e w2]; intros E; injection E as <- <-. auto.
  - intros E; injection E as <- <-. auto.
Qed.

(** The mutex is held exactly by the goroutine inside its critical section,
    and the release waiter exists only once [Lock] has returned nil. *)
Lemma mutex_invariant (lock0 : FileLock) (w0 : world) (s : lock_run world) :
  mutex lock0 = None ->
  reachable RunFunc lock0 w0 s ->
  holders s = match mutex (lk s) with Some g => [g] | None => [] end /\
  (waiter s = WNotStarted \/ caller s = CReturned None).
Proof.
  intros Hm Hr. revert s Hr.
  apply (reachable_invariant RunFunc lock0 w0
           (fun s => holders s = match mutex (lk s) with Some g => [g] | None => [] end /\
                     (waiter s = WNotStarted \/ caller s = CReturned None))).
  - unfold holders; simpl. rewrite Hm. auto.
  - intros a s s' [HP HW] Hs.
    destruct s as [[fp f t d m] rc ec cd c ac wt p h].
    unfold holders in *; simpl in *.
    destruct a;
      unfold step, mutex_free in Hs; simpl in Hs;
      repeat match type of Hs with
             | context [match ?x with _ => _ end] => destruct x eqn:?; simpl in Hs
             end;
      try discriminate Hs; injection Hs as <-;
      repeat match goal with
             | HU : Unlock _ = Returns _ |- _ =>
                 apply Unlock_fields in HU; destruct HU as [? ->]
             end;
      simpl in *; subst; simpl in *;
      destruct HW as [HW|HW]; try discriminate HW; subst; simpl in *;
      (split; [| auto]); try congruence; try reflexivity.
    all: try (destruct c; simpl in *; try discriminate; try congruence).
    all: try (destruct ac; simpl in *; try discriminate; try congruence).
    all: try (destruct wt; simpl in *; try discriminate; try congruence).
    all: try (destruct m; simpl in *; try discriminate; try congruence).
Qed.

(** X1: in every state a [Lock] on a lock with a free mutex can reach, the
    goroutines inside a critical section are exactly the holder of the
    mutex: at most one of the caller, the acquisition goroutine and the
    release waiter is between its [mutex.Lock()] and its [mutex.Unlock()]. *)
Theorem Lock_mutual_exclusion (lock0 : FileLock) (w0 : world) (s : lock_run world) :
  mutex lock0 = None ->
  reachable RunFunc lock0 w0 s ->
  holders s = match mutex (lk s) with Some g => [g] | None => [] end /\
  (length (holders s) <= 1)%nat.
Proof.
  intros Hm Hr. destruct (mutex_invariant lock0 w0 s Hm Hr) as [Hh _].
  split; [exact Hh |]. rewrite Hh. destruct (mutex (lk s)); simpl; lia.
Qed.

Lemma Lock_invariant_reachable (lock0 : FileLock) (w0 : world) (s : lock_run world) :
  File lock0 = None ->
  reachable RunFunc lock0 w0 s -> Lock_invariant lock0 s.
Proof.
  intros Hf Hr. revert s Hr.
  apply (reachable_invariant RunFunc lock0 w0 (Lock_invariant lock0)).
  - unfold Lock_invariant; simpl. repeat split; auto; try discriminate; try congruence.
  - intros a s s' HJ Hs.
    destruct s as [[fp f t d m] rc ec cd c ac wt p h].
    unfold Lock_invariant in *; simpl in *.
    destruct HJ as (Hp & Ht & Hb & HA & He & Hw & Hd & Hc).
    destruct a;
      unfold step, mutex_free in Hs; simpl in Hs;
      repeat match type of Hs with
             | context [match ?x with _ => _ end] => destruct x eqn:?; simpl in Hs
             end;
      try discriminate Hs; injection Hs as <-;
      repeat match goal with
             | HU : Unlock _ = Returns _ |- _ =>
                 apply Unlock_fields in HU; destruct HU as [? ->]
             end;
      simpl in *; subst; simpl in *.
    all: repeat match goal with
         | HL : Lock_timeout _ _ = _ |- _ =>
             apply Lock_timeout_cases in HL; simpl in HL; destruct HL as (? & ? & ?)
         | HL : Lock_release _ _ = _ |- _ =>
             apply Lock_release_cases in HL; simpl in HL; destruct HL as (? & ?)
         end.
    all: try (specialize (Hb eq_refl); subst ec); simpl in *.
    all: try (pose proof (HA (or_introl eq_refl)) as (? & ? & ? & ?)); subst; simpl in *.
    all: try (intuition (subst; simpl in *; try congruence; try lia; try discriminate; eauto);
              fail).
    assert (Hwt : wt = WNotStarted) by (apply Hw; discriminate).
    subst wt.
    split; [assumption |]. split; [assumption |]. split; [assumption |].
    split.
    { intros Hant. destruct (HA Hant) as (Hf0 & Hrc & _ & _).
      destruct (H2 Hf0) as [He1 Hf1].
      repeat split; auto. intros r [= <-]. rewrite He1. reflexivity. }
    split.
    { intros e0 [= <-]. destruct H3 as [[He1 _]|He1]; [left | right]; assumption. }
    split; [split; [discriminate | reflexivity] |].
    split; [discriminate | assumption].
Qed.

(** X2: whatever [Lock] on a lock without a handle returns, it is nil, the
    timeout error or a wrapped unlock error, and an error only after the
    deadline.  The error of [LockFile] is sent on [errCh], which nobody
    receives from: when the acquisition has failed, what [Lock] returns is
    the timeout error. *)
Theorem Lock_returns_nil_or_timeout (lock0 : FileLock) (w0 : world)
    (s : lock_run world) (r : option error) :
  File lock0 = None ->
  reachable RunFunc lock0 w0 s ->
  caller s = CReturned r ->
  (r = None \/ r = Some (timeout_error (FilePath lock0)) \/
   exists e0, r = Some (Wrapf e0 ("failed to unlock timed out lock file "
                                  +:+ FilePath lock0))) /\
  (r <> None -> ctx_done s = true) /\
  (errCh s <> [] -> r = Some (timeout_error (FilePath lock0))).
Proof.
  intros Hf Hr Hc.
  destruct (Lock_invariant_reachable lock0 w0 s Hf Hr)
    as (_ & Ht & _ & HA & He & _ & _ & _).
  split; [| split].
  - destruct r as [e|]; [| left; reflexivity]. right.
    destruct (He e Hc) as [->|[e0 ->]]; [left; reflexivity | right; eauto].
  - intros Hne. apply Ht. rewrite Hc. destruct r; [reflexivity | contradiction].
  - intros Hne. destruct (HA (or_intror Hne)) as (_ & _ & _ & Hret). apply Hret, Hc.
Qed.

(** X3: in every state a [Lock] on a lock without a handle can reach, a
    handle is set only after the acquisition goroutine has published a
    success; the release waiter exists exactly when [Lock] has returned nil;
    once the waiter has finished the handle is nil; the path never
    changes. *)
Theorem Lock_handle_after_publication (lock0 : FileLock) (w0 : world)
    (s : lock_run world) :
  File lock0 = None ->
  reachable RunFunc lock0 w0 s ->
  (File (lk s) <> None -> before_publish (acquirer s) = false /\ errCh s = []) /\
  (waiter s <> WNotStarted <-> caller s = CReturned None) /\
  (waiter s = WDone -> File (lk s) = None) /\
  FilePath (lk s) = FilePath lock0.
Proof.
  intros Hf Hr.
  destruct (Lock_invariant_reachable lock0 w0 s Hf Hr)
    as (Hp & _ & _ & HA & _ & Hw & Hd & _).
  split; [| split; [| split; assumption]].
  - intros Hfile.
    destruct (before_publish (acquirer s)) eqn:Hb.
    + destruct (HA (or_introl eq_refl)) as (Hnone & _). contradiction.
    + split; [reflexivity |]. destruct (errCh s) as [|e ec]; [reflexivity |].
      assert (Hne : e :: ec <> []) by discriminate.
      destruct (HA (or_intror Hne)) as (Hnone & _). contradiction.
  - split.
    + intros Hne. destruct (caller s) as [| | |[e|]] eqn:Hc; try reflexivity;
        elim Hne; apply Hw; discriminate.
    + intros Hc Hwn. apply Hw in Hwn. contradiction.
Qed.

(** X4: the two channels of [Lock], of capacity one, never hold more than
    one value between them, and hold none before the acquisition goroutine
    publishes: its send never blocks. *)
Theorem Lock_channels_never_full (lock0 : FileLock) (w0 : world) (s : lock_run world) :
  reachable RunFunc lock0 w0 s ->
  (resultCh s + length (errCh s) <= 1)%nat /\
  (before_publish (acquirer s) = true -> resultCh s = 0%nat /\ errCh s = []).
Proof.
  intros Hr. revert s Hr.
  apply (reachable_invariant RunFunc lock0 w0
           (fun s => (resultCh s + length (errCh s) <= 1)%nat /\
                     (before_publish (acquirer s) = true ->
                      resultCh s = 0%nat /\ errCh s = []))).
  - simpl. split; [lia | auto].
  - intros a s s' [Hc Hb] Hs.
    destruct s as [[fp f t d m] rc ec cd c ac wt p h]. simpl in *.
    destruct a;
      unfold step, mutex_free in Hs; simpl in Hs;
      repeat match type of Hs with
             | context [match ?x with _ => _ end] => destruct x eqn:?; simpl in Hs
             end;
      try discriminate Hs; injection Hs as <-; simpl in *; subst; simpl in *;
      try (destruct (Hb eq_refl) as [-> ->]); simpl;
      (split; [try lia | intros; try discriminate; auto]).
    destruct (Hb H1) as [Hn _]. discriminate Hn.
Qed.

(** X5: after a successful [Lock], [Unlock] followed by the steps of the
    release waiter ends with the handle nil, the channel closed and the
    mutex free; a handle that was set went through [UnlockFile] once, and
    the handle is cleared whether or not that call failed. *)
Theorem Unlock_then_release (s : lock_run world) :
  panicked s = false ->
  waiter s = WWaiting ->
  done (lk s) = ChanOpen ->
  mutex (lk s) = None ->
  exists s',
    run RunFunc [CallUnlock; WaiterWake; WaiterMutex; WaiterCleanup] s = Some s' /\
    File (lk s') = None /\
    done (lk s') = ChanClosed /\
    mutex (lk s') = None /\
    waiter s' = WDone /\
    caller s' = caller s /\
    host s' = match File (lk s) with
              | Some f => snd (utils_UnlockFile f (host s))
              | None => host s
              end.
Proof.
  intros Hp Hw Hd Hm.
  destruct s as [[fp f t d m] rc ec cd c ac wt p h]. simpl in *. subst.
  unfold run, step, Unlock, close, mutex_free, Lock_release; simpl.
  destruct f as [f|]; simpl.
  - destruct (utils_UnlockFile f h) as [e w1]; simpl.
    eexists; split; [reflexivity |]. simpl. repeat split.
  - eexists; split; [reflexivity |]. simpl. repeat split.
Qed.

End LockProperties.

Lemma late_state_reachable :
  reachable RunFunc_ok (NewLock "/tmp/f" 50000000) sim0 late_state.
Proof. exists late_acquisition. vm_compute. reflexivity. Qed.

Lemma failed_state_reachable :
  reachable RunFunc_ok (NewLock "/tmp/f" 50000000) sim_locked failed_state.
Proof.
  exists (early_acquisition ++ [Deadline; CallerTimeout; CallerMutex; CallerCleanup])%list.
  vm_compute. reflexivity.
Qed.

Lemma locked_state_reachable :
  reachable RunFunc_ok (NewLock "/tmp/f" 50000000) sim0 locked_state.
Proof. exists (early_acquisition ++ [CallerRecv])%list. vm_compute. reflexivity. Qed.

Lemma Lock_mutual_exclusion_witness :
  holders locked_state
    = match mutex (lk locked_state) with Some g => [g] | None => [] end /\
  (length (holders locked_state) <= 1)%nat.
Proof.
  apply (Lock_mutual_exclusion RunFunc_ok (NewLock "/tmp/f" 50000000) sim0 locked_state).
  - reflexivity.
  - exact locked_state_reachable.
Defined.

Lemma Lock_returns_nil_or_timeout_witness :
  errCh failed_state
    = [Wrapf (Errno EWOULDBLOCK) "failed to lock file /tmp/f"] /\
  caller failed_state
    = CReturned (Some (timeout_error "/tmp/f")) /\
  ctx_done failed_state = true.
Proof.
  split; [vm_compute; reflexivity |].
  destruct (Lock_returns_nil_or_timeout RunFunc_ok (NewLock "/tmp/f" 50000000)
              sim_locked failed_state (Some (timeout_error "/tmp/f")))
    as (_ & Hdone & _).
  - reflexivity.
  - exact failed_state_reachable.
  - vm_compute. reflexivity.
  - split; [vm_compute; reflexivity |]. apply Hdone. discriminate.
Defined.

Lemma Lock_handle_after_publication_witness :
  (File (lk locked_state) <> None ->
   before_publish (acquirer locked_state) = false /\ errCh locked_state = []) /\
  (waiter locked_state <> WNotStarted <-> caller locked_state = CReturned None) /\
  (waiter locked_state = WDone -> File (lk locked_state) = None) /\
  FilePath (lk locked_state) = FilePath (NewLock "/tmp/f" 50000000).
Proof.
  apply (Lock_handle_after_publication RunFunc_ok (NewLock "/tmp/f" 50000000)
           sim0 locked_state).
  - reflexivity.
  - exact locked_state_reachable.
Defined.

Lemma Lock_channels_never_full_witness :
  (resultCh late_state + length (errCh late_state) <= 1)%nat /\
  (before_publish (acquirer late_state) = true ->
   resultCh late_state = 0%nat /\ errCh late_state = []).
Proof.
  apply (Lock_channels_never_full RunFunc_ok (NewLock "/tmp/f" 50000000)
           sim0 late_state).
  exact late_state_reachable.
Defined.

Lemma Unlock_then_release_witness :
  exists s',
    run RunFunc_ok [CallUnlock; WaiterWake; WaiterMutex; WaiterCleanup] locked_state
      = Some s' /\
    File (lk s') = None /\
    done (lk s') = ChanClosed /\
    mutex (lk s') = None /\
    waiter s' = WDone /\
    caller s' = caller locked_state /\
    host s' = match File (lk locked_state) with
              | Some f => snd (utils_UnlockFile f (host locked_state))
              | None => host locked_state
              end.
Proof. apply (Unlock_then_release RunFunc_ok locked_state); reflexivity. Defined.

Lemma timed_out_state_reachable :
  reachable RunFunc_ok (NewLock "/tmp/f" 50000000) sim0 (timed_out_state sim0).
Proof.
  exists [AcqMutex; Deadline; CallerTimeout; AcqLockFile; AcqPublish; AcqRelease].
  vm_compute. reflexivity.
Qed.

(** C3, amended: for a [Lock] on a lock without a handle, in every state
    it can reach.  The caller leaves the select through the deadline branch
    only once the deadline has passed, and the deadline does not force that
    branch: an acquisition signalled by then may still be received, and
    [Lock] then returns nil.  On the deadline branch the caller first waits
    for the mutex, so for the acquisition goroutine while it holds it; as
    long as that goroutine has not stored a handle, there is none.  Once the
    mutex is free [Lock] returns an error and releases the mutex: without a
    handle, or with a handle whose unlocking succeeds, the handle ends nil
    and the error is "timed out waiting for file to lock <path>"; with a
    handle whose unlocking fails, the handle stays and the error is the
    unlock error wrapped as "failed to unlock timed out lock file <path>".
    [Lock] returns no other error, only after the deadline, and its message
    names the path; the duration is in neither message. *)
Theorem Lock_timeout_branch :
  (forall (world : Type) (T : Types) (Hh : Host world) (RunFunc : executor world)
          (lock0 : FileLock) (w0 : world) (s : lock_run world),
     File lock0 = None ->
     reachable RunFunc lock0 w0 s ->
     (took_timeout (caller s) = true -> ctx_done s = true) /\
     (before_publish (acquirer s) = true \/ errCh s <> [] -> File (lk s) = None) /\
     (caller s = CTimedOut -> mutex (lk s) <> None ->
      step RunFunc CallerMutex s = None /\ step RunFunc CallerCleanup s = None) /\
     (caller s = CTimedOut -> mutex (lk s) = None -> panicked s = false ->
      exists s',
        run RunFunc [CallerMutex; CallerCleanup] s = Some s' /\
        mutex (lk s') = None /\
        FilePath (lk s') = FilePath lock0 /\
        match File (lk s) with
        | None =>
            caller s' = CReturned (Some (timeout_error (FilePath lock0))) /\
            File (lk s') = None /\ host s' = host s
        | Some f =>
            match utils_UnlockFile f (host s) with
            | (None, w2) =>
                caller s' = CReturned (Some (timeout_error (FilePath lock0))) /\
                File (lk s') = None /\ host s' = w2
            | (Some e, w2) =>
                caller s'
                  = CReturned (Some (Wrapf e ("failed to unlock timed out lock file "
                                              +:+ FilePath lock0))) /\
                File (lk s') = Some f /\ host s' = w2
            end
        end) /\
     (forall err,
        caller s = CReturned (Some err) ->
        ctx_done s = true /\
        (err = timeout_error (FilePath lock0) \/
         exists e0, err = Wrapf e0 ("failed to unlock timed out lock file "
                                    +:+ FilePath lock0)) /\
        strings_Contains (Error err) (FilePath lock0) = true)) /\
  (exists s,
     run RunFunc_ok [Deadline; AcqMutex; AcqLockFile; AcqPublish; AcqRelease; CallerRecv]
       (Lock_start (NewLock "/tmp/f" 50000000) sim0) = Some s /\
     ctx_done s = true /\ caller s = CReturned None /\ File (lk s) = Some 3%nat).
Proof.
  split.
  - intros world T Hh RunFunc lock0 w0 s Hf Hr.
    destruct (Lock_invariant_reachable RunFunc lock0 w0 s Hf Hr)
      as (Hp & Ht & _ & HA & He & _ & _ & _).
    split; [exact Ht |].
    split; [intros Hant; destruct (HA Hant) as (Hnone & _); exact Hnone |].
    split; [| split].
    + intros Hc Hm. unfold step, mutex_free. rewrite Hc.
      destruct (panicked s); [split; reflexivity |].
      destruct (mutex (lk s)); [split; reflexivity | now elim Hm].
    + intros Hc Hm Hpan.
      destruct s as [[fp f t d m] rc ec cd c ac wt p h]. simpl in *. subst.
      unfold run, step, mutex_free, Lock_timeout; simpl.
      destruct f as [f|]; simpl.
      * destruct (utils_UnlockFile f h) as [[e|] w2]; simpl;
          eexists; (split; [reflexivity |]); simpl; repeat split.
      * eexists; (split; [reflexivity |]); simpl; repeat split.
    + intros err Hc.
      split; [apply Ht; rewrite Hc; reflexivity |].
      split; [exact (He err Hc) |].
      destruct (He err Hc) as [->|[e0 ->]].
      * unfold timeout_error. cbn [Error]. apply strings_Contains_end.
      * cbn [Error]. apply strings_Contains_mid.
  - eexists. split; [vm_compute; reflexivity |].
    repeat split.
Qed.

Lemma Lock_timeout_branch_witness :
  exists s',
    run RunFunc_ok [CallerMutex; CallerCleanup] (timed_out_state sim0) = Some s' /\
    mutex (lk s') = None /\
    FilePath (lk s') = FilePath (NewLock "/tmp/f" 50000000) /\
    match File (lk (timed_out_state sim0)) with
    | None =>
        caller s'
          = CReturned (Some (timeout_error (FilePath (NewLock "/tmp/f" 50000000)))) /\
        File (lk s') = None /\ host s' = host (timed_out_state sim0)
    | Some f =>
        match utils_UnlockFile f (host (timed_out_state sim0)) with
        | (None, w2) =>
            caller s'
              = CReturned (Some (timeout_error (FilePath (NewLock "/tmp/f" 50000000)))) /\
            File (lk s') = None /\ host s' = w2
        | (Some e, w2) =>
            caller s'
              = CReturned (Some (Wrapf e ("failed to unlock timed out lock file "
                                          +:+ FilePath (NewLock "/tmp/f" 50000000)))) /\
            File (lk s') = Some f /\ host s' = w2
        end
    end.
Proof.
  destruct Lock_timeout_branch as [Hall _].
  destruct (Hall sim_world SimTypes SimHost RunFunc_ok (NewLock "/tmp/f" 50000000)
              sim0 (timed_out_state sim0) eq_refl timed_out_state_reachable)
    as (_ & _ & _ & Hret & _).
  apply Hret; reflexivity.
Defined.

(** * Further properties *)

(** ** The wrappers *)

Section MoreWrapperFacts.
Context {world : Type} `{Types} `{Host world}.
Variable RunFunc : executor world.

(** X6: with a relative path and an [os.Getwd] that fails, [DeleteDirectory]
    and [CopyDirectory] (for its source, and for its destination once the
    source is resolved) return that error wrapped; the executor is not
    invoked and the host is left as it was. *)
Theorem relative_path_without_cwd (procName directory other wd : string)
    (overWrite : bool) (err : error) (w : world) :
  filepath_IsAbs directory = false ->
  os_Getwd w = (wd, Some err) ->
  DeleteDirectory RunFunc procName directory w =
    (Some (Wrapf err ("failed to remove host directory " +:+ directory)), w) /\
  CopyDirectory RunFunc procName directory other overWrite w =
    (Some (Wrapf err ("failed to copy host content from " +:+ directory
                      +:+ " to " +:+ other)), w) /\
  (filepath_IsAbs other = true ->
   CopyDirectory RunFunc procName other directory overWrite w =
     (Some (Wrapf err ("failed to copy host content from " +:+ other
                       +:+ " to " +:+ directory)), w)).
Proof.
  intros Hrel Hwd.
  assert (Habs : filepath_Abs (os_Getwd w) (filepath_Clean directory) = ("", Some err)).
  { unfold filepath_Abs. rewrite (filepath_Clean_not_abs directory Hrel), Hwd.
    reflexivity. }
  split; [| split].
  - unfold DeleteDirectory. rewrite Habs. reflexivity.
  - unfold CopyDirectory. rewrite Habs. reflexivity.
  - intros Hother. unfold CopyDirectory. rewrite Habs.
    unfold filepath_Abs at 1.
    destruct other as [|c o]; [discriminate |].
    assert (Hc : filepath_IsAbs (filepath_Clean (String c o)) = true).
    { cbn [filepath_IsAbs] in Hother. unfold filepath_Clean. rewrite Hother.
      reflexivity. }
    rewrite Hc. reflexivity.
Qed.


Lemma typed_context_names_path (k : typed_wrapper) (path : string) (e : error) :
  strings_Contains (Error (Wrapf e (typed_context k path))) path = true.
Proof.
  cbn [Error]. destruct k; apply strings_Contains_mid.
Qed.

(** X7: when the executor returns an error, each wrapper that casts returns
    its zero result and an error of the same cause; all but [GetDiskStat]
    wrap it with a context naming the path, [GetDiskStat] returns it as it
    is; the raw result is ignored. *)
Theorem typed_wrapper_executor_error (k : typed_wrapper) (procName path : string)
    (modTime : Z) (w w1 : world) (raw : any) (e : error) :
  RunFunc (typed_fn k path modTime) procName HostProcDirectory 0 w
    = ((raw, Some e), w1) ->
  exists e',
    typed_call RunFunc k procName path modTime w = ((zero_result k, Some e'), w1) /\
    errors_Cause e' = errors_Cause e /\
    (k <> TGetDiskStat ->
     e' = Wrapf e (typed_context k path) /\
     strings_Contains (Error e') path = true) /\
    (k = TGetDiskStat -> e' = e).
Proof.
  intros Hrun.
  destruct k; simpl in Hrun |- *;
    unfold CreateDirectory, ReadDirectory, GetEmptyFiles, GetFileInfo,
      ReadFileContent, GetDiskStat, LockFile;
    rewrite Hrun; simpl; eexists; (split; [reflexivity |]);
    (split; [reflexivity |]); split; intros Hk; try discriminate Hk;
    try (elim Hk; reflexivity); try reflexivity.
  all: split; [reflexivity |].
  - apply (typed_context_names_path TCreateDirectory).
  - apply (typed_context_names_path TReadDirectory).
  - apply (typed_context_names_path TGetEmptyFiles).
  - apply (typed_context_names_path TGetFileInfo).
  - apply (typed_context_names_path TReadFileContent).
  - apply (typed_context_names_path TLockFile).
Qed.

(** X8: a wrapper that casts returns a nil error exactly when the executor
    returned a nil error and a value of the asserted type, and then the
    result is that value ([GetDiskStat] returns a pointer to it); the host is
    always the one the executor left. *)
Theorem typed_wrapper_nil_error (k : typed_wrapper) (procName path : string)
    (modTime : Z) (w w1 : world) (raw : any) (err : option error) :
  RunFunc (typed_fn k path modTime) procName HostProcDirectory 0 w
    = ((raw, err), w1) ->
  snd (typed_call RunFunc k procName path modTime w) = w1 /\
  (snd (fst (typed_call RunFunc k procName path modTime w)) = None <->
   err = None /\ has_expected_type k raw = true) /\
  (err = None -> has_expected_type k raw = true ->
   fst (fst (typed_call RunFunc k procName path modTime w)) =
     match k, raw with
     | TGetDiskStat, AnyDiskStat d => AnyDiskStatPtr (Some d)
     | _, _ => raw
     end).
Proof.
  intros Hrun.
  destruct k; simpl in Hrun |- *;
    unfold CreateDirectory, ReadDirectory, GetEmptyFiles, GetFileInfo,
      ReadFileContent, GetDiskStat, LockFile;
    rewrite Hrun; destruct err as [e|]; simpl;
    try (destruct raw; simpl);
    repeat split; try reflexivity; try discriminate;
    try (intros [? ?]; discriminate); try (intros ? ?; discriminate).
Qed.

(** X9: past its guard, [CopyDirectory] is [CopyFiles] on the paths as
    given (not on their cleaned forms): the same host results and the same
    executor error, under a different context. *)
Theorem CopyDirectory_as_CopyFiles (procName source destination srcDir dstDir : string)
    (overWrite : bool) (w : world) :
  filepath_Abs (os_Getwd w) (filepath_Clean source) = (srcDir, None) ->
  filepath_Abs (os_Getwd w) (filepath_Clean destination) = (dstDir, None) ->
  (2 <= strings_Count_slash srcDir)%nat ->
  (2 <= strings_Count_slash dstDir)%nat ->
  snd (CopyDirectory RunFunc procName source destination overWrite w)
    = snd (CopyFiles RunFunc procName source destination overWrite w) /\
  forall e,
    snd (fst (RunFunc (CopyFiles_fn source destination overWrite)
                procName HostProcDirectory 0 w)) = e ->
    fst (CopyDirectory RunFunc procName source destination overWrite w)
      = errors_Wrapf e ("failed to copy host content from " +:+ source
                        +:+ " to " +:+ destination) /\
    fst (CopyFiles RunFunc procName source destination overWrite w)
      = errors_Wrapf e ("failed to copy files from " +:+ source
                        +:+ " to " +:+ destination).
Proof.
  intros Hs Hd Hs2 Hd2. unfold CopyDirectory, CopyFiles. rewrite Hs, Hd.
  destruct (Nat.ltb_spec (strings_Count_slash srcDir) 2) as [Hlt|_]; [lia |].
  destruct (Nat.ltb_spec (strings_Count_slash dstDir) 2) as [Hlt|_]; [lia |].
  cbv [orb].
  change (CopyDirectory_fn source destination overWrite)
    with (CopyFiles_fn source destination overWrite).
  destruct (RunFunc _ _ _ _ _) as [[raw err] w1]. simpl.
  split; [reflexivity |]. intros e <-. split; reflexivity.
Qed.

End MoreWrapperFacts.

Lemma relative_path_without_cwd_witness :
  DeleteDirectory RunFunc_ok "none" "data/dir" sim_no_cwd =
    (Some (Wrapf (Errno ENOENT) ("failed to remove host directory " +:+ "data/dir")),
     sim_no_cwd) /\
  CopyDirectory RunFunc_ok "none" "data/dir" "/var/lib/x" true sim_no_cwd =
    (Some (Wrapf (Errno ENOENT) ("failed to copy host content from " +:+ "data/dir"
                                 +:+ " to " +:+ "/var/lib/x")), sim_no_cwd) /\
  (filepath_IsAbs "/var/lib/x" = true ->
   CopyDirectory RunFunc_ok "none" "/var/lib/x" "data/dir" true sim_no_cwd =
     (Some (Wrapf (Errno ENOENT) ("failed to copy host content from " +:+ "/var/lib/x"
                                  +:+ " to " +:+ "data/dir")), sim_no_cwd)).
Proof.
  apply (relative_path_without_cwd RunFunc_ok "none" "data/dir" "/var/lib/x" "" true
           (Errno ENOENT) sim_no_cwd); reflexivity.
Defined.

Lemma typed_wrapper_executor_error_witness :
  exists e',
    typed_call (RunFunc_model (NsSwitchFails (Errno EPERM))) TReadFileContent
      "none" "/etc/os-release" 0 sim0 = ((zero_result TReadFileContent, Some e'), sim0) /\
    errors_Cause e' = errors_Cause (Wrapf (Errno EPERM) "failed to switch namespace") /\
    (TReadFileContent <> TGetDiskStat ->
     e' = Wrapf (Wrapf (Errno EPERM) "failed to switch namespace")
            (typed_context TReadFileContent "/etc/os-release") /\
     strings_Contains (Error e') "/etc/os-release" = true) /\
    (TReadFileContent = TGetDiskStat ->
     e' = Wrapf (Errno EPERM) "failed to switch namespace").
Proof.
  apply (typed_wrapper_executor_error (RunFunc_model (NsSwitchFails (Errno EPERM)))
           TReadFileContent "none" "/etc/os-release" 0 sim0 sim0 AnyNil).
  reflexivity.
Defined.

Lemma typed_wrapper_nil_error_witness :
  snd (fst (typed_call RunFunc_ok TCreateDirectory "none" "/var/lib/x" 0 sim0)) = None /\
  fst (fst (typed_call RunFunc_ok TCreateDirectory "none" "/var/lib/x" 0 sim0))
    = AnyString "/var/lib/x".
Proof.
  destruct (typed_wrapper_nil_error RunFunc_ok TCreateDirectory "none" "/var/lib/x" 0
              sim0 (snd (utils_CreateDirectory "/var/lib/x" 0 sim0))
              (AnyString "/var/lib/x") None) as (_ & Hiff & Hval).
  - reflexivity.
  - split; [apply Hiff; split; reflexivity | apply Hval; reflexivity].
Defined.

Lemma CopyDirectory_as_CopyFiles_witness :
  snd (CopyDirectory RunFunc_ok "none" "/var/lib/test-dir" "/tmp/copy" true sim0)
    = snd (CopyFiles RunFunc_ok "none" "/var/lib/test-dir" "/tmp/copy" true sim0).
Proof.
  destruct (CopyDirectory_as_CopyFiles RunFunc_ok "none" "/var/lib/test-dir" "/tmp/copy"
              "/var/lib/test-dir" "/tmp/copy" true sim0) as [Hw _].
  - reflexivity.
  - reflexivity.
  - simpl; lia.
  - simpl; lia.
  - exact Hw.
Defined.

(** ** Package [utils]: slices and identifiers *)


(** X11: [IsStringInSlice] agrees with [Contains] on strings, and returns
    true exactly when the item is in the list. *)
Theorem IsStringInSlice_spec (strs : list string) (item : string) :
  IsStringInSlice strs item = Contains strs item /\
  (IsStringInSlice strs item = true <-> In item strs).
Proof.
  induction strs as [|str rest [IH1 IH2]]; simpl.
  - split; [reflexivity |]. split; [discriminate | contradiction].
  - destruct (String.eqb_spec str item) as [E|E];
      destruct (decide (str = item)) as [E'|E']; try contradiction.
    + split; [reflexivity |]. split; auto.
    + split; [exact IH1 |]. rewrite IH2.
      split; [auto | intros [E''|Hin]; [contradiction | exact Hin]].
Qed.

Lemma substring_0_length (m : nat) (s : string) :
  String.length (substring 0 m s) = Nat.min m (String.length s).
Proof.
  revert s. induction m as [|m IH]; intros s.
  - destruct s; reflexivity.
  - destruct s as [|c s]; [reflexivity |]. simpl. rewrite IH. reflexivity.
Qed.

Lemma substring_0_prefix (m : nat) (s : string) :
  String.prefix (substring 0 m s) s = true.
Proof.
  revert s. induction m as [|m IH]; intros s.
  - destruct s; reflexivity.
  - destruct s as [|c s]; [reflexivity |]. simpl.
    destruct (Ascii.ascii_dec c c) as [_|n]; [apply IH | now elim n].
Qed.

(** X12: with a positive default length, [RandomID] returns a prefix of the
    UUID it drew, of the requested length (the default one for a request of
    zero or less), or the whole UUID when that is shorter. *)
Theorem RandomID_prefix (RandomIDDefaultLength : Z) (uuid : string) (n : Z) :
  0 < RandomIDDefaultLength ->
  exists id,
    RandomID RandomIDDefaultLength uuid n = Returns id /\
    String.prefix id uuid = true /\
    Z.of_nat (String.length id)
      = Z.min (Z.of_nat (String.length uuid))
              (if n <=? 0 then RandomIDDefaultLength else n).
Proof.
  intros Hdef. unfold RandomID.
  set (k := if n <=? 0 then RandomIDDefaultLength else n).
  assert (Hk : 0 < k) by (unfold k; destruct (Z.leb_spec n 0); lia).
  destruct (Z.gtb_spec (Z.of_nat (String.length uuid)) k) as [Hgt|Hle].
  - destruct (Z.ltb_spec k 0); [lia |].
    eexists; split; [reflexivity |]. split; [apply substring_0_prefix |].
    rewrite substring_0_length. lia.
  - exists uuid. split; [reflexivity |]. split; [| lia].
    rewrite <- (append_empty_r uuid) at 2. apply prefix_app.
Qed.

Lemma RandomID_prefix_witness :
  exists id,
    RandomID 8 "123e4567-e89b-12d3-a456-426614174000" 0 = Returns id /\
    String.prefix id "123e4567-e89b-12d3-a456-426614174000" = true /\
    Z.of_nat (String.length id)
      = Z.min (Z.of_nat (String.length "123e4567-e89b-12d3-a456-426614174000"))
              (if 0 <=? 0 then 8 else 0).
Proof.
  apply (RandomID_prefix 8 "123e4567-e89b-12d3-a456-426614174000" 0). lia.
Defined.

Lemma byte_int8_roundtrip (c : ascii) : byte_of_int8 (int8_of_byte c) = c.
Proof. destruct c as [[] [] [] [] [] [] [] []]; reflexivity. Qed.

Lemma int8_of_byte_zero (c : ascii) : int8_of_byte c = 0 -> c = zero.
Proof. destruct c as [[] [] [] [] [] [] [] []]; intros E; try reflexivity; discriminate E. Qed.

Lemma int8_of_byte_range (c : ascii) : -128 <= int8_of_byte c <= 127.
Proof. destruct c as [[] [] [] [] [] [] [] []]; vm_compute; split; discriminate. Qed.

(** The bytes of a string as the [int8] elements of the array. *)
Lemma release_bytes_encode (s : string) (rest : list Z) :
  ~ In zero (list_ascii_of_string s) ->
  release_bytes (map int8_of_byte (list_ascii_of_string s) ++ 0 :: rest)%list = s /\
  release_bytes (map int8_of_byte (list_ascii_of_string s)) = s.
Proof.
  induction s as [|c s IH]; intros Hnz; [split; reflexivity |].
  simpl in Hnz. simpl.
  destruct (Z.eqb_spec (int8_of_byte c) 0) as [E|E].
  - apply int8_of_byte_zero in E. elim Hnz. left. exact E.
  - rewrite byte_int8_roundtrip.
    destruct IH as [IH1 IH2]; [intros Hin; apply Hnz; right; exact Hin |].
    rewrite IH1, IH2. split; reflexivity.
Qed.

(** X13: [GetKernelRelease] returns the bytes of [utsname.Release] up to the
    first zero, whatever follows it, and all of them when there is no zero:
    a release name without a zero byte, stored in the array, is read back as
    it was. *)
Theorem GetKernelRelease_c_string (s : string) (rest : list Z) :
  ~ In zero (list_ascii_of_string s) ->
  GetKernelRelease ((map int8_of_byte (list_ascii_of_string s) ++ 0 :: rest)%list, None)
    = (s, None) /\
  GetKernelRelease (map int8_of_byte (list_ascii_of_string s), None) = (s, None).
Proof.
  intros Hnz. destruct (release_bytes_encode s rest Hnz) as [E1 E2].
  unfold GetKernelRelease. rewrite E1, E2. split; reflexivity.
Qed.

Lemma GetKernelRelease_c_string_witness :
  GetKernelRelease
    ((map int8_of_byte (list_ascii_of_string "6.1.0-talos") ++ 0 :: [0; 0; 7])%list,
     None)
    = ("6.1.0-talos", None) /\
  GetKernelRelease (map int8_of_byte (list_ascii_of_string "6.1.0-talos"), None)
    = ("6.1.0-talos", None).
Proof.
  apply (GetKernelRelease_c_string "6.1.0-talos" [0; 0; 7]).
  vm_compute. intuition discriminate.
Defined.

Lemma byte_of_int8_nonzero (b : Z) :
  -128 <= b <= 127 -> b <> 0 -> byte_of_int8 b <> zero.
Proof.
  intros Hr Hb E. unfold byte_of_int8 in E.
  pose proof (Z.mod_pos_bound b 256 ltac:(lia)) as Hbound.
  assert (Hlt : (Z.to_N (b mod 256) < 256)%N) by lia.
  pose proof (N_ascii_embedding _ Hlt) as Hemb. rewrite E in Hemb.
  change (N_of_ascii zero) with 0%N in Hemb.
  assert (Hz : b mod 256 = 0) by lia.
  assert (Hcases : b mod 256 = b \/ b mod 256 = b + 256).
  { destruct (Z_lt_le_dec b 0).
    - right. symmetry. apply Z.mod_unique with (q := -1); lia.
    - left. apply Z.mod_small. lia. }
  lia.
Qed.

(** X14: the string [GetKernelRelease] returns has no zero byte and is no
    longer than the array; when [Uname] fails it is empty and the error is
    returned. *)
Theorem GetKernelRelease_no_nul (Release : list Z) (err : option error) :
  Forall (fun b => -128 <= b <= 127) Release ->
  let release := fst (GetKernelRelease (Release, err)) in
  ~ In zero (list_ascii_of_string release) /\
  (String.length release <= length Release)%nat /\
  (err <> None -> release = "") /\
  snd (GetKernelRelease (Release, err)) = err.
Proof.
  intros Hr. destruct err as [e|]; simpl.
  - repeat split; auto. lia.
  - repeat split; try congruence.
    + induction Hr as [|b R Hb HR IH]; simpl; [auto |].
      destruct (Z.eqb_spec b 0); simpl; [auto |].
      intros [E|Hin]; [| exact (IH Hin)].
      exact (byte_of_int8_nonzero b Hb n E).
    + induction Hr as [|b R Hb HR IH]; simpl; [lia |].
      destruct (Z.eqb_spec b 0); simpl; lia.
Qed.

Lemma GetKernelRelease_no_nul_witness :
  let release := fst (GetKernelRelease ([54; 46; 49; 0; 55], None)) in
  ~ In zero (list_ascii_of_string release) /\
  (String.length release <= length [54; 46; 49; 0; 55])%nat /\
  (@None error <> None -> release = "") /\
  snd (GetKernelRelease ([54; 46; 49; 0; 55], None)) = None.
Proof.
  apply (GetKernelRelease_no_nul [54; 46; 49; 0; 55] None).
  repeat constructor; lia.
Defined.

(** ** [utils.GetOSDistro] *)

Section OSDistroFacts.
Variable OsReleaseFilePath : string.

Lemma GetOSDistro_fuel_S (fuel : nat) (content cached : string) :
  GetOSDistro_fuel OsReleaseFilePath (S fuel) content cached =
    if negb (String.eqb cached "") then Some ((cached, None), cached)
    else
      match find (fun line => strings_HasPrefix line "ID=")
              (strings_Split newline content) with
      | Some line =>
          GetOSDistro_fuel OsReleaseFilePath fuel ""
            (strings_Trim (strings_TrimPrefix line "ID=") quote)
      | None =>
          Some (("", Some (Errorf ("failed to find ID field in "
                                   +:+ OsReleaseFilePath))), cached)
      end.
Proof. reflexivity. Qed.

Lemma GetOSDistro_fuel_cached (fuel : nat) (content cached : string) :
  cached <> "" ->
  GetOSDistro_fuel OsReleaseFilePath (S fuel) content cached
    = Some ((cached, None), cached).
Proof.
  intros Hne. rewrite GetOSDistro_fuel_S.
  destruct (String.eqb_spec cached ""); [contradiction | reflexivity].
Qed.

Lemma GetOSDistro_fuel_nothing (fuel : nat) :
  GetOSDistro_fuel OsReleaseFilePath (S fuel) "" ""
    = Some (("", Some (Errorf ("failed to find ID field in " +:+ OsReleaseFilePath))),
            "").
Proof. reflexivity. Qed.

Lemma GetOSDistro_fuel_nested (fuel : nat) (id : string) :
  GetOSDistro_fuel OsReleaseFilePath (S fuel) "" id
    = if String.eqb id "" then
        Some (("", Some (Errorf ("failed to find ID field in " +:+ OsReleaseFilePath))),
              "")
      else Some ((id, None), id).
Proof.
  destruct (String.eqb_spec id "") as [->|Hne].
  - apply GetOSDistro_fuel_nothing.
  - apply GetOSDistro_fuel_cached, Hne.
Qed.

(** X15: [GetOSDistro] calls itself at most once: with room for two levels
    of calls it returns, and more room changes nothing. *)
Theorem GetOSDistro_fuel_enough (fuel : nat) (content cached : string) :
  (2 <= fuel)%nat ->
  GetOSDistro_fuel OsReleaseFilePath fuel content cached
    = GetOSDistro OsReleaseFilePath content cached /\
  exists r, GetOSDistro OsReleaseFilePath content cached = Some r.
Proof.
  intros Hfuel. destruct fuel as [|[|fuel]]; try lia.
  unfold GetOSDistro.
  rewrite (GetOSDistro_fuel_S (S fuel)), (GetOSDistro_fuel_S 1).
  destruct (negb (String.eqb cached "")); [eauto |].
  destruct (find _ _) as [line|]; [| eauto].
  rewrite !GetOSDistro_fuel_nested.
  split; [reflexivity |]. destruct (String.eqb _ ""); eauto.
Qed.

Lemma GetOSDistro_cache_hit (content cached : string) :
  cached <> "" ->
  GetOSDistro OsReleaseFilePath content cached = Some ((cached, None), cached).
Proof. apply GetOSDistro_fuel_cached. Qed.

(** X16: with an empty cache, the first line that starts with [ID=] decides:
    with that prefix and the surrounding double quotes trimmed, what is left
    is returned and cached; when nothing is left, the same error as without
    an [ID=] line is returned and the cache stays empty. *)
Theorem GetOSDistro_first_ID_line (content line : string) :
  find (fun l => strings_HasPrefix l "ID=") (strings_Split newline content)
    = Some line ->
  let id := strings_Trim (strings_TrimPrefix line "ID=") quote in
  (id <> "" ->
   GetOSDistro OsReleaseFilePath content "" = Some ((id, None), id)) /\
  (id = "" ->
   GetOSDistro OsReleaseFilePath content ""
     = Some (("", Some (Errorf ("failed to find ID field in " +:+ OsReleaseFilePath))),
             "")).
Proof.
  intros Hfind id. unfold GetOSDistro. rewrite (GetOSDistro_fuel_S 1).
  change (negb (String.eqb "" "")) with false. cbv iota.
  rewrite Hfind, GetOSDistro_fuel_nested. fold id.
  destruct (String.eqb_spec id ""); split; intros; try contradiction; reflexivity.
Qed.

(** X17: with an empty cache and no line that starts with [ID=],
    [GetOSDistro] returns the error "failed to find ID field in <path>" as
    it is (the deferred wrap does not reach the caller) and leaves the cache
    empty. *)
Theorem GetOSDistro_no_ID_line (content : string) :
  find (fun l => strings_HasPrefix l "ID=") (strings_Split newline content) = None ->
  GetOSDistro OsReleaseFilePath content ""
    = Some (("", Some (Errorf ("failed to find ID field in " +:+ OsReleaseFilePath))),
            "").
Proof.
  intros Hfind. unfold GetOSDistro. rewrite (GetOSDistro_fuel_S 1).
  change (negb (String.eqb "" "")) with false. cbv iota.
  rewrite Hfind. reflexivity.
Qed.

(** X18: when [GetOSDistro] succeeds the distribution is not empty and is
    what the cache holds afterwards, and every later call returns it
    whatever the content; when it fails the cache was and stays empty. *)
Theorem GetOSDistro_sticky (content cached distro cache' : string)
    (err : option error) :
  GetOSDistro OsReleaseFilePath content cached = Some ((distro, err), cache') ->
  (err = None ->
   distro <> "" /\ cache' = distro /\
   forall content',
     GetOSDistro OsReleaseFilePath content' cache' = Some ((distro, None), distro)) /\
  (err <> None ->
   distro = "" /\ cached = "" /\ cache' = "" /\
   err = Some (Errorf ("failed to find ID field in " +:+ OsReleaseFilePath))).
Proof.
  unfold GetOSDistro. rewrite (GetOSDistro_fuel_S 1).
  destruct (String.eqb_spec cached "") as [->|Hne]; cbn [negb].
  - destruct (find _ _) as [line|].
    + rewrite GetOSDistro_fuel_nested.
      destruct (String.eqb_spec (strings_Trim (strings_TrimPrefix line "ID=") quote) "")
        as [E|E]; intros [= <- <- <-].
      * split; [discriminate | auto].
      * split; [| intros Hc; now elim Hc].
        intros _. split; [exact E |]. split; [reflexivity |].
        intros content'. apply GetOSDistro_fuel_cached, E.
    + intros [= <- <- <-]. split; [discriminate | auto].
  - intros [= <- <- <-]. split; [| intros Hc; now elim Hc].
    intros _. split; [exact Hne |]. split; [reflexivity |].
    intros content'. apply GetOSDistro_fuel_cached, Hne.
Qed.

End OSDistroFacts.

Lemma GetOSDistro_fuel_enough_witness :
  GetOSDistro_fuel "/etc/os-release" 7 "ID=talos" ""
    = GetOSDistro "/etc/os-release" "ID=talos" "" /\
  exists r, GetOSDistro "/etc/os-release" "ID=talos" "" = Some r.
Proof. apply (GetOSDistro_fuel_enough "/etc/os-release" 7 "ID=talos" ""). lia. Defined.

Lemma trim_right_plain (c : ascii) (x : string) :
  ~ In c (list_ascii_of_string x) ->
  trim_right c (x +:+ String c "") = x /\ trim_right c x = x.
Proof.
  induction x as [|a r IH]; intros Hnot.
  - change (trim_right c (String c "") = "" /\ trim_right c "" = "").
    cbn [trim_right]. rewrite Ascii.eqb_refl. auto.
  - simpl in Hnot.
    assert (Hac : Ascii.eqb a c = false).
    { destruct (Ascii.eqb_spec a c) as [E|E]; [| reflexivity].
      elim Hnot. left. exact E. }
    destruct IH as [IH1 IH2]; [intros Hin; apply Hnot; right; exact Hin |].
    change (String a r +:+ String c "") with (String a (r +:+ String c "")).
    cbn [trim_right]. rewrite IH1, IH2, Hac. destruct r; auto.
Qed.

Lemma strings_Trim_quoted (x : string) :
  x <> "" -> ~ In quote (list_ascii_of_string x) ->
  strings_Trim (String quote (x +:+ String quote "")) quote = x /\
  strings_Trim x quote = x.
Proof.
  intros Hne Hnot. destruct x as [|a r]; [contradiction |].
  assert (Hac : Ascii.eqb a quote = false).
  { destruct (Ascii.eqb_spec a quote) as [E|E]; [| reflexivity].
    elim Hnot. left. exact E. }
  destruct (trim_right_plain quote (String a r) Hnot) as [E1 E2].
  unfold strings_Trim. cbn [trim_left]. rewrite Ascii.eqb_refl.
  change (String a r +:+ String quote "") with (String a (r +:+ String quote "")).
  cbn [trim_left]. rewrite Hac.
  change (String a (r +:+ String quote "")) with (String a r +:+ String quote "").
  rewrite E1, E2. auto.
Qed.

Lemma strings_TrimPrefix_app (p x : string) : strings_TrimPrefix (p +:+ x) p = x.
Proof.
  unfold strings_TrimPrefix, strings_HasPrefix. rewrite prefix_app.
  induction p as [|c p IH]; [reflexivity | exact IH].
Qed.

(** X19: for an identifier without double quotes, a first [ID=] line that
    holds it, bare or between double quotes, makes [GetOSDistro] return the
    identifier. *)
Theorem GetOSDistro_quoted_id (OsReleaseFilePath content id : string) :
  id <> "" -> ~ In quote (list_ascii_of_string id) ->
  (find (fun l => strings_HasPrefix l "ID=") (strings_Split newline content)
     = Some ("ID=" +:+ id) \/
   find (fun l => strings_HasPrefix l "ID=") (strings_Split newline content)
     = Some ("ID=" +:+ String quote (id +:+ String quote ""))) ->
  GetOSDistro OsReleaseFilePath content "" = Some ((id, None), id).
Proof.
  intros Hne Hnot Hfind.
  destruct (strings_Trim_quoted id Hne Hnot) as [E1 E2].
  unfold GetOSDistro. rewrite (GetOSDistro_fuel_S OsReleaseFilePath 1).
  change (negb (String.eqb "" "")) with false. cbv iota.
  destruct Hfind as [Hfind|Hfind]; rewrite Hfind, GetOSDistro_fuel_nested,
    strings_TrimPrefix_app; [rewrite E2 | rewrite E1];
    (destruct (String.eqb_spec id ""); [contradiction | reflexivity]).
Qed.

Lemma GetOSDistro_first_ID_line_witness :
  GetOSDistro "/etc/os-release"
    ("NAME=Talos" +:+ String newline ("ID=talos" +:+ String newline "ID=other")) ""
    = Some (("talos", None), "talos").
Proof.
  destruct (GetOSDistro_first_ID_line "/etc/os-release"
              ("NAME=Talos" +:+ String newline ("ID=talos" +:+ String newline "ID=other"))
              "ID=talos") as [Hok _].
  - vm_compute. reflexivity.
  - apply Hok. vm_compute. discriminate.
Defined.

Lemma GetOSDistro_no_ID_line_witness :
  GetOSDistro "/etc/os-release"
    ("ID_LIKE=debian" +:+ String newline "VERSION_ID=12") ""
    = Some (("", Some (Errorf "failed to find ID field in /etc/os-release")), "").
Proof.
  apply (GetOSDistro_no_ID_line "/etc/os-release"
           ("ID_LIKE=debian" +:+ String newline "VERSION_ID=12")).
  vm_compute. reflexivity.
Defined.

Lemma GetOSDistro_sticky_witness :
  GetOSDistro "/etc/os-release" "ID=talos" "" = Some (("talos", None), "talos") /\
  GetOSDistro "/etc/os-release" "ID=ubuntu" "talos" = Some (("talos", None), "talos").
Proof.
  split; [vm_compute; reflexivity |].
  destruct (GetOSDistro_sticky "/etc/os-release" "ID=talos" "" "talos" "talos" None)
    as [Hok _].
  - vm_compute. reflexivity.
  - destruct (Hok eq_refl) as (_ & _ & Hall). apply Hall.
Defined.

Lemma GetOSDistro_quoted_id_witness :
  GetOSDistro "/etc/os-release"
    ("NAME=Ubuntu" +:+ String newline
       ("ID=" +:+ String quote ("ubuntu" +:+ String quote ""))) ""
    = Some (("ubuntu", None), "ubuntu").
Proof.
  apply (GetOSDistro_quoted_id "/etc/os-release"
           ("NAME=Ubuntu" +:+ String newline
              ("ID=" +:+ String quote ("ubuntu" +:+ String quote ""))) "ubuntu").
  - discriminate.
  - vm_compute. intuition discriminate.
  - right. vm_compute. reflexivity.
Defined.

(** ** [utils.getSystemBlockDeviceInfo] *)

Lemma parse_digits_nonneg (s : string) (acc n : Z) :
  0 <= acc -> parse_digits s acc = Some n -> 0 <= n.
Proof.
  revert acc. induction s as [|c s IH]; intros acc Hacc; simpl.
  - intros [= <-]. exact Hacc.
  - unfold digit_of.
    destruct ((48 <=? Z.of_N (N_of_ascii c)) && (Z.of_N (N_of_ascii c) <=? 57)) eqn:E;
      [| discriminate].
    apply andb_prop in E. destruct E as [E1 E2].
    apply Z.leb_le in E1. apply IH. lia.
Qed.

(** X20: when [readDeviceNumber] succeeds the index is within the fields,
    the field is not empty and the number is an [int64]. *)
Theorem readDeviceNumber_ok (numbers : list string) (index : nat) (n : Z) :
  readDeviceNumber numbers index = (n, None) ->
  (index < length numbers)%nat /\
  nth index numbers "" <> "" /\
  - 2 ^ 63 <= n <= 2 ^ 63 - 1.
Proof.
  unfold readDeviceNumber.
  destruct (Nat.leb_spec (length numbers) index) as [Hle|Hlt]; [discriminate |].
  destruct (strconv_ParseInt (nth index numbers "")) as [v [e|]] eqn:E;
    [discriminate |].
  intros [= <-]. split; [exact Hlt |].
  unfold strconv_ParseInt in E.
  destruct (nth index numbers "") as [|c r]; [discriminate |].
  split; [discriminate |].
  destruct (if Ascii.eqb c "+" || Ascii.eqb c "-" then r else String c r) as [|c' r'];
    [discriminate |].
  destruct (parse_digits (String c' r') 0) as [un|] eqn:Ep; [| discriminate].
  pose proof (parse_digits_nonneg _ 0 un ltac:(lia) Ep) as Hun.
  destruct (Ascii.eqb c "-").
  - destruct (Z.gtb_spec un (2 ^ 63)); [discriminate |]. injection E as <-. lia.
  - destruct (Z.geb_spec un (2 ^ 63)); [discriminate |]. injection E as <-. lia.
Qed.

Lemma readDeviceNumber_ok_witness :
  (1 < length ["8"; "16"])%nat /\ nth 1 ["8"; "16"] "" <> "" /\
  - 2 ^ 63 <= 16 <= 2 ^ 63 - 1.
Proof. apply (readDeviceNumber_ok ["8"; "16"] 1 16). reflexivity. Defined.

Lemma strings_Split_no_sep (sep : ascii) (x : string) :
  ~ In sep (list_ascii_of_string x) -> strings_Split sep x = [x].
Proof.
  induction x as [|c x IH]; intros Hnot; [reflexivity |].
  simpl in Hnot. cbn [strings_Split].
  destruct (Ascii.eqb_spec c sep) as [E|E]; [elim Hnot; left; exact E |].
  rewrite IH; [reflexivity | intros Hin; apply Hnot; right; exact Hin].
Qed.

Section BlockDeviceFacts.
Context {world : Type}.
Variable SysClassBlockDirectory : string.
Variable strings_TrimSpace : string -> string.
Variable readDirFn : string -> world -> (list DirEntry * option error) * world.
Variable readFileFn : string -> world -> (string * option error) * world.

Local Abbreviation scan :=
  (scan_devices SysClassBlockDirectory strings_TrimSpace readFileFn).
Local Abbreviation entry :=
  (device_entry SysClassBlockDirectory strings_TrimSpace readFileFn).
Local Abbreviation path_of deviceName :=
  (filepath_JoinList [SysClassBlockDirectory; deviceName; "dev"]).

Lemma scan_devices_all_or_nothing (devices : list DirEntry)
    (acc : gmap string BlockDeviceInfo) (w : world) :
  (exists m, fst (scan devices acc w) = (Some m, None)) \/
  (exists err, fst (scan devices acc w) = (None, Some err)).
Proof.
  revert acc w. induction devices as [|d rest IH]; intros acc w; simpl.
  - left. eauto.
  - cbn [scan_devices].
    destruct (readFileFn _ w) as [[data [err|]] w1]; [right; eauto |].
    destruct (readDeviceNumber _ 0) as [major [e|]]; [apply IH |].
    destruct (readDeviceNumber _ 1) as [minor [e|]]; apply IH.
Qed.

(** X21: [getSystemBlockDeviceInfo] returns either a map and no error, or no
    map and an error, never both or neither. *)
Theorem getSystemBlockDeviceInfo_all_or_nothing (w : world) :
  let r := fst (getSystemBlockDeviceInfo SysClassBlockDirectory strings_TrimSpace
                  readDirFn readFileFn w) in
  (exists m, r = (Some m, None)) \/ (exists err, r = (None, Some err)).
Proof.
  unfold getSystemBlockDeviceInfo.
  destruct (readDirFn SysClassBlockDirectory w) as [[devices [err|]] w1]; simpl.
  - right. eauto.
  - apply scan_devices_all_or_nothing.
Qed.

Hypothesis read_only : forall p w, snd (readFileFn p w) = w.

Lemma scan_devices_lookup (devices : list DirEntry)
    (acc : gmap string BlockDeviceInfo) (w : world) :
  (forall d, In d devices -> snd (fst (readFileFn (path_of (de_Name d)) w)) = None) ->
  exists m,
    scan devices acc w = ((Some m, None), w) /\
    forall name,
      m !! name =
        if decide (name ∈ map de_Name devices) then
          match entry w name with
          | Some info => Some info
          | None => acc !! name
          end
        else acc !! name.
Proof.
  revert acc. induction devices as [|d rest IH]; intros acc Hread.
  - exists acc. split; [reflexivity |]. intros name.
    destruct (decide (name ∈ map de_Name [])) as [Hin|_]; [inversion Hin | reflexivity].
  - assert (Hrest : forall d', In d' rest ->
                      snd (fst (readFileFn (path_of (de_Name d')) w)) = None).
    { intros d' Hin. apply Hread. right. exact Hin. }
    pose proof (Hread d (or_introl eq_refl)) as Hd.
    pose proof (read_only (path_of (de_Name d)) w) as Hw.
    cbn [scan_devices].
    assert (Hentry : entry w (de_Name d) =
              match readFileFn (path_of (de_Name d)) w with
              | ((_, Some _), _) => None
              | ((data, None), _) =>
                  match readDeviceNumber
                          (strings_Split ":"%char (strings_TrimSpace data)) 0,
                        readDeviceNumber
                          (strings_Split ":"%char (strings_TrimSpace data)) 1 with
                  | (major, None), (minor, None) =>
                      Some (mkBlockDeviceInfo (de_Name d) major minor)
                  | _, _ => None
                  end
              end) by reflexivity.
    destruct (readFileFn (path_of (de_Name d)) w) as [[data err] w1].
    simpl in Hd, Hw. subst err w1.
    set (numbers := strings_Split ":"%char (strings_TrimSpace data)) in *.
    assert (Hskip : entry w (de_Name d) = None ->
              exists m,
                scan rest acc w = ((Some m, None), w) /\
                forall name,
                  m !! name =
                    if decide (name ∈ map de_Name (d :: rest)) then
                      match entry w name with
                      | Some info => Some info
                      | None => acc !! name
                      end
                    else acc !! name).
    { intros Hnone. destruct (IH acc Hrest) as (m & Hm & Hlook).
      exists m. split; [exact Hm |]. intros name. rewrite Hlook. cbn [map].
      destruct (decide (name ∈ map de_Name rest)) as [Hin|Hnin];
        destruct (decide (name ∈ de_Name d :: map de_Name rest)) as [Hin'|Hnin'];
        try reflexivity.
      - elim Hnin'. apply elem_of_cons. right. exact Hin.
      - apply elem_of_cons in Hin'. destruct Hin' as [->|Hin']; [| contradiction].
        rewrite Hnone. reflexivity. }
    destruct (readDeviceNumber numbers 0) as [major [e0|]]; [apply Hskip, Hentry |].
    destruct (readDeviceNumber numbers 1) as [minor [e1|]]; [apply Hskip, Hentry |].
    destruct (IH (<[de_Name d := mkBlockDeviceInfo (de_Name d) major minor]> acc)
                Hrest) as (m & Hm & Hlook).
    exists m. split; [exact Hm |].
    intros name. rewrite Hlook. cbn [map].
    destruct (decide (name = de_Name d)) as [->|Hne].
    + rewrite Hentry, lookup_insert_eq.
      destruct (decide (de_Name d ∈ map de_Name rest));
        destruct (decide (de_Name d ∈ de_Name d :: map de_Name rest)) as [_|Hnin'];
        try reflexivity; elim Hnin'; apply elem_of_cons; left; reflexivity.
    + rewrite lookup_insert_ne by congruence.
      destruct (decide (name ∈ map de_Name rest)) as [Hin|Hnin];
        destruct (decide (name ∈ de_Name d :: map de_Name rest)) as [Hin'|Hnin'];
        try reflexivity.
      * elim Hnin'. apply elem_of_cons. right. exact Hin.
      * apply elem_of_cons in Hin'. destruct Hin' as [E|Hin']; [congruence | contradiction].
Qed.

(** X22: with readers that change nothing and [dev] files that can all be
    read, [getSystemBlockDeviceInfo] returns a map that holds, for each
    device listed, its name with the major and minor numbers of its file
    when both parse, and no entry when they do not; nothing else is in the
    map. *)
Theorem getSystemBlockDeviceInfo_lookup (devices : list DirEntry) (w w1 : world) :
  readDirFn SysClassBlockDirectory w = ((devices, None), w1) ->
  (forall d, In d devices -> snd (fst (readFileFn (path_of (de_Name d)) w1)) = None) ->
  exists m,
    getSystemBlockDeviceInfo SysClassBlockDirectory strings_TrimSpace
      readDirFn readFileFn w = ((Some m, None), w1) /\
    forall name,
      m !! name =
        if decide (name ∈ map de_Name devices) then entry w1 name else None.
Proof.
  intros Hdir Hread. unfold getSystemBlockDeviceInfo. rewrite Hdir.
  destruct (scan_devices_lookup devices ∅ w1 Hread) as (m & Hm & Hlook).
  exists m. split; [exact Hm |]. intros name. rewrite Hlook, lookup_empty.
  destruct (decide (name ∈ map de_Name devices)); [| reflexivity].
  destruct (entry w1 name); reflexivity.
Qed.

Lemma scan_devices_read_error (devices : list DirEntry)
    (acc : gmap string BlockDeviceInfo) (w : world) (d : DirEntry) :
  In d devices ->
  snd (fst (readFileFn (path_of (de_Name d)) w)) <> None ->
  exists err, scan devices acc w = ((None, Some err), w).
Proof.
  revert acc. induction devices as [|d0 rest IH]; intros acc Hin Hfail; [contradiction |].
  cbn [scan_devices].
  pose proof (read_only (path_of (de_Name d0)) w) as Hw.
  destruct (readFileFn (path_of (de_Name d0)) w) as [[data [err|]] w1] eqn:E0;
    simpl in Hw; subst w1; [eauto |].
  destruct Hin as [->|Hin]; [rewrite E0 in Hfail; now elim Hfail |].
  destruct (readDeviceNumber _ 0) as [major [e0|]]; [apply IH; assumption |].
  destruct (readDeviceNumber _ 1) as [minor [e1|]]; apply IH; assumption.
Qed.

(** X23: with readers that change nothing, one [dev] file that cannot be
    read makes [getSystemBlockDeviceInfo] return an error and no map,
    whatever the other devices are. *)
Theorem getSystemBlockDeviceInfo_read_error (devices : list DirEntry) (w w1 : world)
    (d : DirEntry) :
  readDirFn SysClassBlockDirectory w = ((devices, None), w1) ->
  In d devices ->
  snd (fst (readFileFn (path_of (de_Name d)) w1)) <> None ->
  exists err,
    getSystemBlockDeviceInfo SysClassBlockDirectory strings_TrimSpace
      readDirFn readFileFn w = ((None, Some err), w1).
Proof.
  intros Hdir Hin Hfail. unfold getSystemBlockDeviceInfo. rewrite Hdir.
  apply (scan_devices_read_error devices ∅ w1 d Hin Hfail).
Qed.

(** X24: a [dev] file whose trimmed content has no colon yields no entry: the
    minor number is missing and the device is skipped. *)
Theorem device_entry_without_colon (w w1 : world) (deviceName data : string) :
  readFileFn (path_of deviceName) w = ((data, None), w1) ->
  ~ In ":"%char (list_ascii_of_string (strings_TrimSpace data)) ->
  device_entry SysClassBlockDirectory strings_TrimSpace readFileFn w deviceName = None.
Proof.
  intros Hread Hnot. unfold device_entry.
  rewrite Hread, (strings_Split_no_sep _ _ Hnot).
  destruct (readDeviceNumber [strings_TrimSpace data] 0) as [major [e|]]; reflexivity.
Qed.

End BlockDeviceFacts.

Lemma sample_read_only : forall p w, snd (sample_readFile p w) = w.
Proof.
  intros p w. unfold sample_readFile.
  repeat match goal with |- context [if ?b then _ else _] => destruct b end; reflexivity.
Qed.

Lemma getSystemBlockDeviceInfo_lookup_witness :
  exists m,
    getSystemBlockDeviceInfo "/sys/class/block" sample_TrimSpace
      (sample_readDir ["sda"; "loop0"; "sdb"]) sample_readFile tt = ((Some m, None), tt) /\
    m !! "sda" = Some (mkBlockDeviceInfo "sda" 8 0) /\
    m !! "sdb" = Some (mkBlockDeviceInfo "sdb" 8 16) /\
    m !! "loop0" = None /\
    m !! "sdc" = None.
Proof.
  destruct (getSystemBlockDeviceInfo_lookup "/sys/class/block" sample_TrimSpace
              (sample_readDir ["sda"; "loop0"; "sdb"]) sample_readFile sample_read_only
              (map (fun n => mkDirEntry n false) ["sda"; "loop0"; "sdb"]) tt tt)
    as (m & Hm & Hlook).
  - reflexivity.
  - intros d [<-|[<-|[<-|[]]]]; reflexivity.
  - exists m. split; [exact Hm |].
    rewrite !Hlook. repeat split; vm_compute; reflexivity.
Defined.

Lemma getSystemBlockDeviceInfo_read_error_witness :
  exists err,
    getSystemBlockDeviceInfo "/sys/class/block" sample_TrimSpace
      (sample_readDir ["sda"; "gone"]) sample_readFile tt = ((None, Some err), tt).
Proof.
  apply (getSystemBlockDeviceInfo_read_error "/sys/class/block" sample_TrimSpace
           (sample_readDir ["sda"; "gone"]) sample_readFile sample_read_only
           (map (fun n => mkDirEntry n false) ["sda"; "gone"]) tt tt
           (mkDirEntry "gone" false)).
  - reflexivity.
  - right. left. reflexivity.
  - vm_compute. discriminate.
Defined.

Lemma device_entry_without_colon_witness :
  device_entry "/sys/class/block" sample_TrimSpace sample_readFile tt "loop0" = None.
Proof.
  apply (device_entry_without_colon "/sys/class/block" sample_TrimSpace sample_readFile
           tt tt "loop0" "7").
  - reflexivity.
  - vm_compute. intuition discriminate.
Defined.
